(** * Shadow Realm board game: the turn controls over the game database

    A shallow embedding of the turn / movement / tile-effect code of the
    [TurnControls] component (handlers [rollDice], [rollMovement],
    [rollAction], [applyTileEffects], [endTurn] and the button panel) together
    with the part of its parent [GameBoard] that feeds it ([loadGameData]) and
    the initial player row written by [CharacterCreation].

    Modelling conventions:
    - JavaScript numbers that hold integers are [Z]; [%] is [Z.rem].
    - [Math.random()] is a stream of rationals; the handlers are only
      specified for values in the half-open unit interval (predicate
      [unit_interval]).
    - The remote database is a record of tables; rows are keyed by their
      [id] column.  Every awaited remote call may throw: a fault plan
      [Some k] makes the [k]-th awaited call of a handler throw, [None]
      lets every call succeed.
    - The props a handler closes over ([game], [currentPlayer]) are the
      snapshot the parent loaded last; they are refreshed by
      [loadGameData] only.
    - Handlers run one at a time, each to its end; the reload that
      [endTurn] starts without awaiting it runs before the next handler. *)

From Stdlib Require Import ZArith QArith Qround String List Lia.
From stdpp Require Import gmap strings list sorting pretty.

Local Open Scope Z_scope.

(** ** Rows of the database tables *)

Record Game := mkGame {
  game_id : string;            (* column [id] *)
  current_turn : Z;
  current_player : Z;
  status : string;
  created_at : string
}.

Record Player := mkPlayer {
  player_id : string;          (* column [id] *)
  player_game_id : string;     (* column [game_id] *)
  user_id : string;
  player_number : Z;
  character_name : string;
  position : Z;
  health : Z;
  gold : Z;
  is_ai : Z
}.

Record Tile := mkTile {
  tile_position : Z;           (* column [position] *)
  tile_type : string;
  tile_name : string
}.

(** The text of a chat message is a template filled with values; the
    template is kept as a constructor and the values as its arguments. *)
Inductive Content :=
| MovedTo (name : string) (dice : list Z) (total newPosition : Z)
    (* "<name> rolled <d1 + d2> = <total> and moved to tile <newPosition>" *)
| PassedPortal (name : string)
    (* "<name> passed the Shadow Portal and collected 200 gold!" *)
| Narration
    (* the text returned by the narrator for the tile encounter *)
| HealthChanged (name : string) (gained : bool) (amount : Z)
    (* "<name> gained|lost <amount> health!" *)
| GoldChanged (name : string) (gained : bool) (amount : Z)
    (* "<name> gained|lost <amount> gold!" *)
| TurnEnded (name : string) (nextPlayer : Z).
    (* "<name> ended their turn. Player <nextPlayer>'s turn begins!" *)

Inductive Metadata :=
| MdEmpty                                              (* '{}' *)
| MdMovement (dice : list Z) (total newPosition : Z)   (* action: 'movement' *)
| MdTileEncounter (roll : Z) (tile : Tile).            (* action: 'tile_encounter' *)

Record ChatMessage := mkChatMessage {
  msg_game_id : string;
  msg_player_id : option string;
  message_type : string;
  content : Content;
  metadata : Metadata
}.

Record DB := mkDB {
  db_players : gmap string Player;
  db_games : gmap string Game;
  db_board_tiles : list Tile;
  db_chat_messages : list ChatMessage
}.

(** ** Partial row updates, as passed to [update(id, fields)] *)

Definition with_position (newPosition : Z) (p : Player) : Player :=
  mkPlayer (player_id p) (player_game_id p) (user_id p) (player_number p)
           (character_name p) newPosition (health p) (gold p) (is_ai p).

Definition with_gold (newGold : Z) (p : Player) : Player :=
  mkPlayer (player_id p) (player_game_id p) (user_id p) (player_number p)
           (character_name p) (position p) (health p) newGold (is_ai p).

Definition with_health_gold (newHealth newGold : Z) (p : Player) : Player :=
  mkPlayer (player_id p) (player_game_id p) (user_id p) (player_number p)
           (character_name p) (position p) newHealth newGold (is_ai p).

Definition with_turn (nextPlayer nextTurn : Z) (g : Game) : Game :=
  mkGame (game_id g) nextTurn nextPlayer (status g) (created_at g).

(** ** The remote calls, on the tables *)

Definition by_player_number_asc (p q : Player) : Prop :=
  player_number p <= player_number q.

Definition by_created_at_desc (g h : Game) : Prop :=
  String.leb (created_at h) (created_at g) = true.

#[global] Instance by_player_number_asc_dec p q : Decision (by_player_number_asc p q).
Proof. unfold by_player_number_asc. apply _. Defined.

#[global] Instance by_created_at_desc_dec g h : Decision (by_created_at_desc g h).
Proof. unfold by_created_at_desc. apply _. Defined.

Module blink.

(* update(id, fields) sets the given columns of the row [id]; on an id
   that is not in the table it writes nothing. *)
Definition players_update (id : string) (fields : Player -> Player) (d : DB) : unit * DB :=
  (tt, mkDB (alter fields id (db_players d)) (db_games d)
            (db_board_tiles d) (db_chat_messages d)).

Definition games_update (id : string) (fields : Game -> Game) (d : DB) : unit * DB :=
  (tt, mkDB (db_players d) (alter fields id (db_games d))
            (db_board_tiles d) (db_chat_messages d)).

Definition chat_messages_create (m : ChatMessage) (d : DB) : unit * DB :=
  (tt, mkDB (db_players d) (db_games d) (db_board_tiles d)
            (db_chat_messages d ++ [m])).

(* board_tiles.list({ where: { position }, limit }) *)
Definition board_tiles_list (pos : Z) (limit : nat) (d : DB) : list Tile * DB :=
  (take limit (filter (fun t => tile_position t = pos) (db_board_tiles d)), d).

(* players.list({ orderBy: { player_number: 'asc' }, limit }) *)
Definition players_list (limit : nat) (d : DB) : list Player * DB :=
  (take limit
     (merge_sort by_player_number_asc (map_to_list (db_players d)).*2), d).

(* games.list({ orderBy: { created_at: 'desc' }, limit }) *)
Definition games_list (limit : nat) (d : DB) : list Game * DB :=
  (take limit
     (merge_sort by_created_at_desc (map_to_list (db_games d)).*2), d).

(* ai.generateText: the text is opaque to the handlers *)
Definition ai_generateText (d : DB) : unit * DB := (tt, d).

End blink.

(** ** The dice *)

Definition unit_interval (u : Q) : Prop := (0 <= u)%Q /\ (u < 1)%Q.

(* Math.floor(Math.random() * 6) + 1.  The product is taken exactly; in
   double precision the largest value below 1 times 6 still rounds below 6,
   so the faces are the same six. *)
Definition die (u : Q) : Z := Qfloor (u * 6) + 1.

(* rollDice(count): [random i] is the value of the i-th call of Math.random *)
Definition rollDice (random : nat -> Q) (count : nat) : list Z :=
  map (fun i => die (random i)) (seq 0 count).

(** ** The tile policy: the [switch] of [applyTileEffects] *)

(* returns (healthChange, goldChange) *)
Definition tileChanges (tile_type : string) (roll : Z) : Z * Z :=
  if String.eqb tile_type "monster" then
    if roll >=? 15 then (0, 50 + roll * 5)
    else if roll <=? 8 then (-15, 0)
    else (0, 0)
  else if String.eqb tile_type "treasure" then
    (0, 25 + roll * 3)
  else if String.eqb tile_type "event" then
    if roll >=? 12 then (0, 30)
    else if roll <=? 6 then (0, -20)
    else (0, 0)
  else if String.eqb tile_type "property" then
    (0, 0)
  else (0, 0).

(** ** Component state

    One [Client] is one mounted [GameBoard] with its [TurnControls] child:
    the props and state of the parent, the hooks of the child, and the
    toasts shown so far. *)

Inductive Toast :=
| ToastRolled (total newPosition : Z)   (* success: "Rolled <total>! Moved to tile <newPosition>" *)
| ToastFailedRoll                       (* error: 'Failed to roll dice' *)
| ToastTileNotFound                     (* error: 'Tile not found' *)
| ToastActionRoll (roll : Z)            (* success: "Action roll: <roll>" *)
| ToastFailedAction                     (* error: 'Failed to perform action' *)
| ToastFailedEndTurn                    (* error: 'Failed to end turn' *)
| ToastGameNotFound                     (* error: 'Game not found' *)
| ToastFailedLoad.                      (* error: 'Failed to load game data' *)

Record Client := mkClient {
  (* GameBoard props *)
  gameId : string;
  user : string;                        (* user.id *)
  (* GameBoard state *)
  gb_game : option Game;
  gb_players : list Player;
  gb_currentPlayer : option Player;
  loading : bool;
  exited : bool;                        (* onExitGame was called *)
  (* TurnControls hooks *)
  rolling : bool;
  lastRoll : list Z;
  actionPhase : bool;
  processing : bool;
  (* sonner *)
  toasts : list Toast
}.

(* What a freshly mounted board holds before its first load. *)
Definition mount (gameId user : string) : Client :=
  mkClient gameId user None [] None true false false [] false false [].

(** ** Handlers as computations

    A handler runs over the database, its client and the fault plan, and
    completes normally, by [return], or by a thrown exception. *)

Record Run := mkRun {
  db : DB;
  ui : Client;
  faults : option nat
}.

Inductive Completion (A : Type) :=
| Normal (a : A)
| Returned
| Thrown.
Arguments Normal {A} a.
Arguments Returned {A}.
Arguments Thrown {A}.

Definition M (A : Type) : Type := Run -> Completion A * Run.

#[global] Instance M_ret : MRet M := fun A a s => (Normal a, s).

#[global] Instance M_bind : MBind M := fun A B k m s =>
  match m s with
  | (Normal a, s') => k a s'
  | (Returned, s') => (Returned, s')
  | (Thrown, s') => (Thrown, s')
  end.

Definition return_ {A} : M A := fun s => (Returned, s).

(* An awaited remote call: throws when the fault plan says so, and then
   has no effect on the tables. *)
Definition await {A} (call : DB -> A * DB) : M A := fun s =>
  match faults s with
  | Some O => (Thrown, s)
  | Some (S k) => let '(a, d) := call (db s) in (Normal a, mkRun d (ui s) (Some k))
  | None => let '(a, d) := call (db s) in (Normal a, mkRun d (ui s) None)
  end.

(* try { body } catch { handler } finally { fin } *)
Definition try_catch_finally {A} (body handler : M A) (fin : M unit) : M A := fun s =>
  let '(c, s1) := match body s with
                  | (Thrown, s1) => handler s1
                  | r => r
                  end in
  match fin s1 with
  | (Normal _, s2) => (c, s2)
  | (Returned, s2) => (Returned, s2)
  | (Thrown, s2) => (Thrown, s2)
  end.

(* A call that is not awaited: however it completes, the caller goes on. *)
Definition detached (call : M unit) : M unit := fun s => (Normal tt, (call s).2).

(* The boundary of an async function: [return] ends the function. *)
Definition async (body : M unit) : M unit := fun s =>
  match body s with
  | (Returned, s') => (Normal tt, s')
  | r => r
  end.

Definition useClient : M Client := fun s => (Normal (ui s), s).

Definition setClient (f : Client -> Client) : M unit := fun s =>
  (Normal tt, mkRun (db s) (f (ui s)) (faults s)).

Definition setGame (g : option Game) : M unit :=
  setClient (fun c => mkClient (gameId c) (user c) g (gb_players c) (gb_currentPlayer c)
    (loading c) (exited c) (rolling c) (lastRoll c) (actionPhase c) (processing c) (toasts c)).

Definition setPlayers (ps : list Player) : M unit :=
  setClient (fun c => mkClient (gameId c) (user c) (gb_game c) ps (gb_currentPlayer c)
    (loading c) (exited c) (rolling c) (lastRoll c) (actionPhase c) (processing c) (toasts c)).

Definition setCurrentPlayer (p : option Player) : M unit :=
  setClient (fun c => mkClient (gameId c) (user c) (gb_game c) (gb_players c) p
    (loading c) (exited c) (rolling c) (lastRoll c) (actionPhase c) (processing c) (toasts c)).

Definition setLoading (b : bool) : M unit :=
  setClient (fun c => mkClient (gameId c) (user c) (gb_game c) (gb_players c) (gb_currentPlayer c)
    b (exited c) (rolling c) (lastRoll c) (actionPhase c) (processing c) (toasts c)).

Definition onExitGame : M unit :=
  setClient (fun c => mkClient (gameId c) (user c) (gb_game c) (gb_players c) (gb_currentPlayer c)
    (loading c) true (rolling c) (lastRoll c) (actionPhase c) (processing c) (toasts c)).

Definition setRolling (b : bool) : M unit :=
  setClient (fun c => mkClient (gameId c) (user c) (gb_game c) (gb_players c) (gb_currentPlayer c)
    (loading c) (exited c) b (lastRoll c) (actionPhase c) (processing c) (toasts c)).

Definition setLastRoll (l : list Z) : M unit :=
  setClient (fun c => mkClient (gameId c) (user c) (gb_game c) (gb_players c) (gb_currentPlayer c)
    (loading c) (exited c) (rolling c) l (actionPhase c) (processing c) (toasts c)).

Definition setActionPhase (b : bool) : M unit :=
  setClient (fun c => mkClient (gameId c) (user c) (gb_game c) (gb_players c) (gb_currentPlayer c)
    (loading c) (exited c) (rolling c) (lastRoll c) b (processing c) (toasts c)).

Definition setProcessing (b : bool) : M unit :=
  setClient (fun c => mkClient (gameId c) (user c) (gb_game c) (gb_players c) (gb_currentPlayer c)
    (loading c) (exited c) (rolling c) (lastRoll c) (actionPhase c) b (toasts c)).

Definition toast (t : Toast) : M unit :=
  setClient (fun c => mkClient (gameId c) (user c) (gb_game c) (gb_players c) (gb_currentPlayer c)
    (loading c) (exited c) (rolling c) (lastRoll c) (actionPhase c) (processing c) (toasts c ++ [t])).

(** ** TurnControls *)

Section TurnControls.

(* props *)
Variable game : Game.
Variable currentPlayer : Player.
Variable onGameUpdate : M unit.

Definition isMyTurn : bool := player_number currentPlayer =? current_player game.

Definition rollMovement (random : nat -> Q) : M unit :=
  async (
    c ← useClient;
    if negb isMyTurn || rolling c then return_ else
    setRolling true;;
    try_catch_finally
      ((* Roll 2d6 for movement *)
       let diceRolls := rollDice random 2 in
       let totalMovement := fold_left Z.add diceRolls 0 in
       setLastRoll diceRolls;;
       (* Calculate new position *)
       let newPosition := Z.rem (position currentPlayer + totalMovement) 100 in
       (* Update player position *)
       await (blink.players_update (player_id currentPlayer) (with_position newPosition));;
       (* Add movement message *)
       await (blink.chat_messages_create
                (mkChatMessage (game_id game) (Some (player_id currentPlayer)) "action"
                   (MovedTo (character_name currentPlayer) diceRolls totalMovement newPosition)
                   (MdMovement diceRolls totalMovement newPosition)));;
       (* Check if passed start (tile 0) *)
       (if position currentPlayer + totalMovement >=? 100 then
          await (blink.players_update (player_id currentPlayer)
                   (with_gold (gold currentPlayer + 200)));;
          await (blink.chat_messages_create
                   (mkChatMessage (game_id game) (Some (player_id currentPlayer)) "system"
                      (PassedPortal (character_name currentPlayer)) MdEmpty))
        else mret tt);;
       setActionPhase true;;
       toast (ToastRolled totalMovement newPosition))
      (toast ToastFailedRoll)
      (setRolling false)).

Definition applyTileEffects (tile : Tile) (roll : Z) : M unit :=
  let '(healthChange, goldChange) := tileChanges (tile_type tile) roll in
  (* Apply changes *)
  if negb (healthChange =? 0) || negb (goldChange =? 0) then
    let newHealth := Z.max 0 (Z.min 100 (health currentPlayer + healthChange)) in
    let newGold := Z.max 0 (gold currentPlayer + goldChange) in
    await (blink.players_update (player_id currentPlayer)
             (with_health_gold newHealth newGold));;
    (if negb (healthChange =? 0) then
       await (blink.chat_messages_create
                (mkChatMessage (game_id game) (Some (player_id currentPlayer)) "system"
                   (HealthChanged (character_name currentPlayer)
                      (healthChange >? 0) (Z.abs healthChange)) MdEmpty))
     else mret tt);;
    (if negb (goldChange =? 0) then
       await (blink.chat_messages_create
                (mkChatMessage (game_id game) (Some (player_id currentPlayer)) "system"
                   (GoldChanged (character_name currentPlayer)
                      (goldChange >? 0) (Z.abs goldChange)) MdEmpty))
     else mret tt)
  else mret tt.

Definition rollAction (random : nat -> Q) : M unit :=
  async (
    c ← useClient;
    if negb isMyTurn || processing c then return_ else
    setProcessing true;;
    try_catch_finally
      ((* Roll 1d20 for action *)
       let actionRoll := default 0 (rollDice random 1 !! 0%nat) in
       (* Get current tile info *)
       tiles ← await (blink.board_tiles_list (position currentPlayer) 1);
       match tiles with
       | [] => toast ToastTileNotFound;; return_
       | currentTile :: _ =>
         (* Generate AI narration for the tile encounter *)
         await blink.ai_generateText;;
         (* Add action message *)
         await (blink.chat_messages_create
                  (mkChatMessage (game_id game) (Some (player_id currentPlayer)) "narrator"
                     Narration (MdTileEncounter actionRoll currentTile)));;
         (* Apply tile effects based on roll and type *)
         applyTileEffects currentTile actionRoll;;
         toast (ToastActionRoll actionRoll)
       end)
      (toast ToastFailedAction)
      (setProcessing false)).

(* The two constants [endTurn] computes first. *)
Definition nextPlayer : Z := Z.rem (current_player game) 4 + 1.

Definition nextTurn : Z :=
  if nextPlayer =? 1 then current_turn game + 1 else current_turn game.

Definition endTurn : M unit :=
  async (
    c ← useClient;
    if negb isMyTurn || processing c then return_ else
    setProcessing true;;
    try_catch_finally
      ((* Move to next player *)
       await (blink.games_update (game_id game) (with_turn nextPlayer nextTurn));;
       (* Add turn end message *)
       await (blink.chat_messages_create
                (mkChatMessage (game_id game) None "system"
                   (TurnEnded (character_name currentPlayer) nextPlayer) MdEmpty));;
       setActionPhase false;;
       setLastRoll [];;
       detached onGameUpdate)
      (toast ToastFailedEndTurn)
      (setProcessing false)).

(** The action buttons of the panel. *)
Inductive Button := BtnRollMovement | BtnTakeAction | BtnEndTurn.

Definition rendered (c : Client) (b : Button) : bool :=
  isMyTurn &&
  match b with
  | BtnRollMovement => negb (actionPhase c)
  | BtnTakeAction | BtnEndTurn => actionPhase c
  end.

Definition disabled (c : Client) (b : Button) : bool :=
  match b with
  | BtnRollMovement => rolling c
  | BtnTakeAction | BtnEndTurn => processing c
  end.

Definition onClick (b : Button) (random : nat -> Q) : M unit :=
  match b with
  | BtnRollMovement => rollMovement random
  | BtnTakeAction => rollAction random
  | BtnEndTurn => endTurn
  end.

(* A click reaches the handler only on a button that is on screen and
   not disabled. *)
Definition click (b : Button) (random : nat -> Q) : M unit :=
  c ← useClient;
  if rendered c b && negb (disabled c b) then onClick b random else mret tt.

End TurnControls.

(** ** GameBoard *)

(* loadGameData: reloads the game row, the roster of the game and the
   player of the signed-in user.  The generation of the adventure story,
   which it may start afterwards, writes neither a player row nor the
   turn columns and is left out. *)
Definition loadGameData : M unit :=
  async (
    c ← useClient;
    try_catch_finally
      ((* Load game *)
       allGames ← await (blink.games_list 50);
       match List.find (fun g => String.eqb (game_id g) (gameId c)) allGames with
       | None => toast ToastGameNotFound;; onExitGame;; return_
       | Some gameInfo =>
         setGame (Some gameInfo);;
         (* Load players *)
         allPlayers ← await (blink.players_list 100);
         (* Filter players for this game *)
         let playersData :=
           List.filter (fun p => String.eqb (player_game_id p) (gameId c)) allPlayers in
         setPlayers playersData;;
         (* Find current user's player *)
         setCurrentPlayer (List.find (fun p => String.eqb (user_id p) (user c)) playersData)
       end)
      (toast ToastFailedLoad)
      (setLoading false)).

(* The board shows the turn controls once loading is over and both the
   game and the user's player are known. *)
Definition turnControls {A} (c : Client) (k : Game -> Player -> A) : option A :=
  if loading c || exited c then None
  else match gb_game c, gb_currentPlayer c with
       | Some game, Some currentPlayer => Some (k game currentPlayer)
       | _, _ => None
       end.

(** ** Sessions: several clients over one database *)

Inductive Op :=
| OpMount                                 (* the board is (re)mounted: the page is opened *)
| OpRollMovement (random : nat -> Q)      (* the handler is invoked *)
| OpRollAction (random : nat -> Q)
| OpEndTurn
| OpClick (b : Button) (random : nat -> Q). (* a button of the panel is clicked *)

Definition perform (op : Op) : M unit := fun s =>
  match op with
  | OpMount =>
      (* useEffect(() => { loadGameData() }, [gameId]) on a fresh board *)
      loadGameData (mkRun (db s) (mount (gameId (ui s)) (user (ui s))) (faults s))
  | OpRollMovement random =>
      default (mret tt) (turnControls (ui s) (fun g p => rollMovement g p random)) s
  | OpRollAction random =>
      default (mret tt) (turnControls (ui s) (fun g p => rollAction g p random)) s
  | OpEndTurn =>
      default (mret tt) (turnControls (ui s) (fun g p => endTurn g p loadGameData)) s
  | OpClick b random =>
      default (mret tt) (turnControls (ui s) (fun g p => click g p loadGameData b random)) s
  end.

Record World := mkWorld {
  w_db : DB;
  w_clients : list Client
}.

Record Event := mkEvent {
  ev_client : nat;            (* which client acts *)
  ev_op : Op;
  ev_faults : option nat      (* which awaited call of the operation throws *)
}.

Definition step (w : World) (e : Event) : World :=
  match w_clients w !! ev_client e with
  | None => w
  | Some c =>
      let s := (perform (ev_op e) (mkRun (w_db w) c (ev_faults e))).2 in
      mkWorld (db s) (<[ev_client e := ui s]> (w_clients w))
  end.

Definition run (w : World) (es : list Event) : World := fold_left step es w.

(** ** CharacterCreation: the row of a new player *)

Definition newPlayer (id gameId userId : string) (playerNumber : Z) (name : string) : Player :=
  mkPlayer id gameId userId playerNumber name 0 100 1500 0.

(* MainLobby.createGame: the row of a new game *)
Definition newGame (id created : string) : Game :=
  mkGame id 1 1 "waiting" created.

(** ** Vocabulary of the properties *)

(* The clamped ranges of the resources of a player. *)
Definition healthy (p : Player) : Prop :=
  0 <= health p <= 100 /\ 0 <= gold p.

Definition db_healthy (d : DB) : Prop :=
  map_Forall (fun _ p => healthy p) (db_players d).

(* The snapshot a client computes with is in range too. *)
Definition client_healthy (c : Client) : Prop :=
  forall p, gb_currentPlayer c = Some p -> healthy p.

Definition run_healthy (s : Run) : Prop :=
  db_healthy (db s) /\ client_healthy (ui s).

Definition world_healthy (w : World) : Prop :=
  db_healthy (w_db w) /\ Forall client_healthy (w_clients w).

(* [m] keeps the ranges, and what it returns satisfies [Q]. *)
Definition keeps {A} (m : M A) (Q : A -> Prop) : Prop :=
  forall s, run_healthy s ->
    run_healthy (m s).2 /\ forall a, (m s).1 = Normal a -> Q a.

(* The state of a player that has not played yet. *)
Definition initial_player (p : Player) : Prop :=
  position p = 0 /\ health p = 100 /\ gold p = 1500.

(* A session before its first operation: every player row is as created,
   every board has just been mounted. *)
Definition initial_world (w : World) : Prop :=
  map_Forall (fun _ p => initial_player p) (db_players (w_db w)) /\
  Forall (fun c => exists g u, c = mount g u) (w_clients w).

(* The two constants the movement handler has built in. *)
Definition boardSize : Z := 100.
Definition wrapBonus : Z := 200.

(* The roster of a game: the player numbers registered for it. *)
Definition roster (gameId : string) (d : DB) : list Z :=
  player_number <$>
    List.filter (fun p => String.eqb (player_game_id p) gameId)
                (map_to_list (db_players d)).*2.

(* The tile-encounter rolls recorded in a chat log. *)
Definition action_rolls (log : list ChatMessage) : list Z :=
  omap (fun m => match metadata m with
                 | MdTileEncounter roll _ => Some roll
                 | _ => None
                 end) log.

(* The movement rolls recorded in a chat log. *)
Definition movement_rolls (log : list ChatMessage) : list (list Z) :=
  omap (fun m => match metadata m with
                 | MdMovement dice _ _ => Some dice
                 | _ => None
                 end) log.

(* An operation was reported as failed when it raised an error toast. *)
Definition is_error (t : Toast) : bool :=
  match t with
  | ToastRolled _ _ | ToastActionRoll _ => false
  | _ => true
  end.

(** A two-player session used for the examples. *)

Definition alice : Player := newPlayer "p1" "g1" "ua" 1 "Alice".
Definition bob : Player := newPlayer "p2" "g1" "ub" 2 "Bob".

Definition demo_tiles : list Tile :=
  [mkTile 0 "start" "Shadow Portal"; mkTile 2 "monster" "Ogre Den";
   mkTile 7 "treasure" "Hidden Cache"; mkTile 95 "event" "Whispering Fog"].

Definition demo_db : DB :=
  mkDB (<["p1" := alice]> (<["p2" := bob]> ∅)) (<["g1" := newGame "g1" "2024-05-01"]> ∅)
       demo_tiles [].

Definition demo_world : World :=
  mkWorld demo_db [mount "g1" "ua"; mount "g1" "ub"].

(* Math.random() returning [a] first and [b] afterwards. *)
Definition randoms (a b : Q) : nat -> Q :=
  fun i => match i with O => a | _ => b end.

(* The same session later in the game: Alice stands on tile 95 with 10
   gold left. *)
Definition alice_late : Player := mkPlayer "p1" "g1" "ua" 1 "Alice" 95 70 10 0.

Definition late_db : DB :=
  mkDB (<["p1" := alice_late]> (<["p2" := bob]> ∅))
       (<["g1" := newGame "g1" "2024-05-01"]> ∅) demo_tiles [].

(* A board that has just loaded its data from the tables [d]. *)
Definition loaded (d : DB) (gameId user : string) : Run :=
  (loadGameData (mkRun d (mount gameId user) None)).2.

Definition demo_game : Game := newGame "g1" "2024-05-01".

(* The board of client [c] shows the turn controls with the props [game]
   and [currentPlayer]. *)
Definition shows_controls (c : Client) (game : Game) (currentPlayer : Player) : Prop :=
  loading c = false /\ exited c = false /\
  gb_game c = Some game /\ gb_currentPlayer c = Some currentPlayer.

(* The same run with a new fault plan, for the next operation. *)
Definition next_op (s : Run) (plan : option nat) : Run := mkRun (db s) (ui s) plan.

(** ** Further vocabulary *)

(* The tile encounters recorded in a chat log: the roll and the tile it
   was resolved on. *)
Definition encounters (log : list ChatMessage) : list (Z * Tile) :=
  omap (fun m => match metadata m with
                 | MdTileEncounter roll tile => Some (roll, tile)
                 | _ => None
                 end) log.

(* An invariant of a run: [D] on the tables, [C] on the client. *)
Definition holds (D : DB -> Prop) (C : Client -> Prop) (s : Run) : Prop :=
  D (db s) /\ C (ui s).

(* [m] maintains the invariant, and what it returns satisfies [Q]. *)
Definition maintains (D : DB -> Prop) (C : Client -> Prop) {A} (m : M A) (Q : A -> Prop) : Prop :=
  forall s, holds D C s ->
    holds D C (m s).2 /\ forall a, (m s).1 = Normal a -> Q a.

Definition world_holds (D : DB -> Prop) (C : Client -> Prop) (w : World) : Prop :=
  D (w_db w) /\ Forall C (w_clients w).

(* A position on the board. *)
Definition on_board (p : Player) : Prop := 0 <= position p <= boardSize - 1.

(* The dice of an operation come from Math.random. *)
Definition fair_dice (op : Op) : Prop :=
  match op with
  | OpRollMovement random | OpClick BtnRollMovement random =>
      unit_interval (random 0%nat) /\ unit_interval (random 1%nat)
  | _ => True
  end.


(* Every stored player row satisfies [P]; so does the player snapshot of
   a client. *)
Definition rows_all (P : Player -> Prop) (d : DB) : Prop :=
  map_Forall (fun _ p => P p) (db_players d).

Definition snapshot_all (P : Player -> Prop) (c : Client) : Prop :=
  forall p, gb_currentPlayer c = Some p -> P p.



(* The snapshots of a client are those of [c0]. *)
Definition same_snapshot (c0 c : Client) : Prop :=
  gb_game c = gb_game c0 /\
  gb_currentPlayer c = gb_currentPlayer c0 /\
  gb_players c = gb_players c0.
(* The turn pointer names one of the four seats, and the turn counter has
   not gone below its start. *)
Definition seated (g : Game) : Prop :=
  1 <= current_player g <= 4 /\ 1 <= current_turn g.

Definition games_all (P : Game -> Prop) (d : DB) : Prop :=
  map_Forall (fun _ g => P g) (db_games d).

Definition game_snapshot_all (P : Game -> Prop) (c : Client) : Prop :=
  forall g, gb_game c = Some g -> P g.

(* The later session on a board whose tile 95 is a property, and the first
   session on a board without any tile. *)
Definition quiet_db : DB :=
  mkDB (db_players late_db) (db_games late_db) [mkTile 95 "property" "Raven Keep"] [].

Definition bare_db : DB :=
  mkDB (db_players demo_db) (db_games demo_db) [] [].

(** ** App, MainLobby and CharacterCreation

    The way into a game: the lobby creates or joins a game, [App] routes to
    the character creation or to the board, and the creation form stores
    the player row.  One [Front] is the state of [App] for one signed-in
    user together with the hooks of the child it renders. *)

Module frontend.

Inductive GameState := StLobby | StCharacterCreation | StGame.

Record CharacterStats := mkStats {
  strength : Z;
  dexterity : Z;
  constitution : Z;
  intelligence : Z;
  wisdom : Z;
  charisma : Z
}.

Inductive Notice :=
| NoticeLoadGamesFailed        (* error: "Failed to load games" *)
| NoticeEnterGameName          (* error: "Please enter a game name" *)
| NoticeGameCreated            (* success: "Game created successfully!" *)
| NoticeCreateGameFailed       (* error: "Failed to create game" *)
| NoticeGameFull               (* error: "Game is full" *)
| NoticeRejoining              (* success: "Rejoining game..." *)
| NoticeJoining                (* success: "Joining game..." *)
| NoticeJoinFailed             (* error: "Failed to join game" *)
| NoticeAttributesRolled       (* success: "Character attributes rolled!" *)
| NoticeEnterName              (* error: "Please enter a character name" *)
| NoticeSelectClass            (* error: "Please select a character class" *)
| NoticeRollFirst              (* error: "Please roll for attributes first" *)
| NoticeCharacterCreated       (* success: "Character created successfully!" *)
| NoticeCreateCharacterFailed. (* error: "Failed to create character" *)

Record Front := mkFront {
  (* App *)
  user : string;                 (* user.id *)
  gameState : GameState;
  currentGameId : option string;
  (* MainLobby *)
  games : list Game;
  lobbyLoading : bool;           (* loading *)
  showCreateGame : bool;
  gameName : string;
  lobbyCreating : bool;          (* creating *)
  (* CharacterCreation *)
  characterName : string;
  selectedClass : string;
  stats : CharacterStats;
  creating : bool;
  hasRolled : bool;
  notices : list Notice
}.

(* The hooks as the components initialise them; [name] is the local part
   of the e-mail address of the user. *)
Definition start (userId name : string) : Front :=
  mkFront userId StLobby None [] true false "" false
          name "" (mkStats 10 10 10 10 10 10) false false [].

(* create(row) and list({ where }) of the SDK.  The rows are keyed by
   their id; the ids are drawn from the clock and Math.random, and a row
   created under an id that is already stored takes its place.  list
   without a limit is taken to return every matching row; the handlers
   use the length of the result and [find] on a condition, so its order
   does not matter. *)
Definition players_create (row : Player) (d : DB) : unit * DB :=
  (tt, mkDB (<[player_id row := row]> (db_players d)) (db_games d)
            (db_board_tiles d) (db_chat_messages d)).

Definition games_create (row : Game) (d : DB) : unit * DB :=
  (tt, mkDB (db_players d) (<[game_id row := row]> (db_games d))
            (db_board_tiles d) (db_chat_messages d)).

Definition players_where (cond : Player -> bool) (d : DB) : list Player * DB :=
  (List.filter cond (map_to_list (db_players d)).*2, d).

(** *** Handlers as effectful programs, as for the board *)

Record Visit := mkVisit {
  db : DB;
  front : Front;
  faults : option nat
}.

Definition F (A : Type) : Type := Visit -> Completion A * Visit.

#[global] Instance F_ret : MRet F := fun A a s => (Normal a, s).

#[global] Instance F_bind : MBind F := fun A B k m s =>
  match m s with
  | (Normal a, s') => k a s'
  | (Returned, s') => (Returned, s')
  | (Thrown, s') => (Thrown, s')
  end.

Definition return_ {A} : F A := fun s => (Returned, s).

Definition await {A} (call : DB -> A * DB) : F A := fun s =>
  match faults s with
  | Some O => (Thrown, s)
  | Some (S k) => let '(a, d) := call (db s) in (Normal a, mkVisit d (front s) (Some k))
  | None => let '(a, d) := call (db s) in (Normal a, mkVisit d (front s) None)
  end.

Definition try_catch_finally {A} (body handler : F A) (fin : F unit) : F A := fun s =>
  let '(c, s1) := match body s with
                  | (Thrown, s1) => handler s1
                  | r => r
                  end in
  match fin s1 with
  | (Normal _, s2) => (c, s2)
  | (Returned, s2) => (Returned, s2)
  | (Thrown, s2) => (Thrown, s2)
  end.

Definition try_catch {A} (body handler : F A) : F A :=
  try_catch_finally body handler (mret tt).

Definition detached (call : F unit) : F unit := fun s => (Normal tt, (call s).2).

Definition async (body : F unit) : F unit := fun s =>
  match body s with
  | (Returned, s') => (Normal tt, s')
  | r => r
  end.

Definition useFront : F Front := fun s => (Normal (front s), s).

Definition setFront (f : Front -> Front) : F unit := fun s =>
  (Normal tt, mkVisit (db s) (f (front s)) (faults s)).

Definition setGameState (g : GameState) : F unit :=
  setFront (fun c => mkFront (user c) g (currentGameId c)
    (games c) (lobbyLoading c) (showCreateGame c) (gameName c) (lobbyCreating c)
    (characterName c) (selectedClass c) (stats c) (creating c) (hasRolled c) (notices c)).

Definition setCurrentGameId (g : option string) : F unit :=
  setFront (fun c => mkFront (user c) (gameState c) g
    (games c) (lobbyLoading c) (showCreateGame c) (gameName c) (lobbyCreating c)
    (characterName c) (selectedClass c) (stats c) (creating c) (hasRolled c) (notices c)).

Definition setGames (l : list Game) : F unit :=
  setFront (fun c => mkFront (user c) (gameState c) (currentGameId c)
    l (lobbyLoading c) (showCreateGame c) (gameName c) (lobbyCreating c)
    (characterName c) (selectedClass c) (stats c) (creating c) (hasRolled c) (notices c)).

Definition setLobbyLoading (b : bool) : F unit :=
  setFront (fun c => mkFront (user c) (gameState c) (currentGameId c)
    (games c) b (showCreateGame c) (gameName c) (lobbyCreating c)
    (characterName c) (selectedClass c) (stats c) (creating c) (hasRolled c) (notices c)).

Definition setShowCreateGame (b : bool) : F unit :=
  setFront (fun c => mkFront (user c) (gameState c) (currentGameId c)
    (games c) (lobbyLoading c) b (gameName c) (lobbyCreating c)
    (characterName c) (selectedClass c) (stats c) (creating c) (hasRolled c) (notices c)).

Definition setGameName (n : string) : F unit :=
  setFront (fun c => mkFront (user c) (gameState c) (currentGameId c)
    (games c) (lobbyLoading c) (showCreateGame c) n (lobbyCreating c)
    (characterName c) (selectedClass c) (stats c) (creating c) (hasRolled c) (notices c)).

Definition setLobbyCreating (b : bool) : F unit :=
  setFront (fun c => mkFront (user c) (gameState c) (currentGameId c)
    (games c) (lobbyLoading c) (showCreateGame c) (gameName c) b
    (characterName c) (selectedClass c) (stats c) (creating c) (hasRolled c) (notices c)).

Definition setCharacterName (n : string) : F unit :=
  setFront (fun c => mkFront (user c) (gameState c) (currentGameId c)
    (games c) (lobbyLoading c) (showCreateGame c) (gameName c) (lobbyCreating c)
    n (selectedClass c) (stats c) (creating c) (hasRolled c) (notices c)).

Definition setSelectedClass (n : string) : F unit :=
  setFront (fun c => mkFront (user c) (gameState c) (currentGameId c)
    (games c) (lobbyLoading c) (showCreateGame c) (gameName c) (lobbyCreating c)
    (characterName c) n (stats c) (creating c) (hasRolled c) (notices c)).

Definition setStats (st : CharacterStats) : F unit :=
  setFront (fun c => mkFront (user c) (gameState c) (currentGameId c)
    (games c) (lobbyLoading c) (showCreateGame c) (gameName c) (lobbyCreating c)
    (characterName c) (selectedClass c) st (creating c) (hasRolled c) (notices c)).

Definition setCreating (b : bool) : F unit :=
  setFront (fun c => mkFront (user c) (gameState c) (currentGameId c)
    (games c) (lobbyLoading c) (showCreateGame c) (gameName c) (lobbyCreating c)
    (characterName c) (selectedClass c) (stats c) b (hasRolled c) (notices c)).

Definition setHasRolled (b : bool) : F unit :=
  setFront (fun c => mkFront (user c) (gameState c) (currentGameId c)
    (games c) (lobbyLoading c) (showCreateGame c) (gameName c) (lobbyCreating c)
    (characterName c) (selectedClass c) (stats c) (creating c) b (notices c)).

Definition notify (n : Notice) : F unit :=
  setFront (fun c => mkFront (user c) (gameState c) (currentGameId c)
    (games c) (lobbyLoading c) (showCreateGame c) (gameName c) (lobbyCreating c)
    (characterName c) (selectedClass c) (stats c) (creating c) (hasRolled c)
    (notices c ++ [n])).

(** *** App *)

(* onStartGame, the callback handed to the lobby *)
Definition onStartGame (gameId : string) : F unit :=
  async (
    setCurrentGameId (Some gameId);;
    c ← useFront;
    (* Check if user already has a character in this game *)
    try_catch
      (existingPlayers ← await (players_where (fun p =>
          String.eqb (player_game_id p) gameId && String.eqb (user_id p) (user c)));
       if (0 <? length existingPlayers)%nat then setGameState StGame
       else setGameState StCharacterCreation)
      ((* Default to character creation on error *)
       setGameState StCharacterCreation)).

Definition onCharacterCreated : F unit := setGameState StGame.

Definition onBack : F unit := setGameState StLobby;; setCurrentGameId None.

Definition onExitGame : F unit := setGameState StLobby;; setCurrentGameId None.

Section Components.

(* String.prototype.trim *)
Variable trim : string -> string.

(** *** MainLobby *)

Definition loadGames : F unit :=
  async (
    try_catch_finally
      (gamesList ← await (blink.games_list 20);
       (* Filter for waiting or active games *)
       let filteredGames :=
         take 10 (List.filter (fun g => String.eqb (status g) "waiting"
                                        || String.eqb (status g) "active") gamesList) in
       setGames filteredGames)
      (notify NoticeLoadGamesFailed)
      (setLobbyLoading false)).

(* createGame; [gameId] is the id it draws, [now] the creation time the
   table stamps on the row *)
Definition createGame (gameId now : string) : F unit :=
  async (
    c ← useFront;
    if String.eqb (trim (gameName c)) "" then
      notify NoticeEnterGameName;; return_
    else
      setLobbyCreating true;;
      try_catch_finally
        ((* Create the game *)
         await (games_create (newGame gameId now));;
         notify NoticeGameCreated;;
         setShowCreateGame false;;
         setGameName "";;
         detached (onStartGame gameId))
        (notify NoticeCreateGameFailed)
        (setLobbyCreating false)).

Definition joinGame (gameId : string) : F unit :=
  async (
    c ← useFront;
    try_catch
      ((* Check current players *)
       existingPlayers ← await (players_where (fun p => String.eqb (player_game_id p) gameId));
       if (4 <=? length existingPlayers)%nat then
         notify NoticeGameFull;; return_
       else
         (* Check if user already in game *)
         match List.find (fun p => String.eqb (user_id p) (user c)) existingPlayers with
         | Some _ =>
           notify NoticeRejoining;;
           detached (onStartGame gameId);;
           return_
         | None =>
           (* Go to character creation for new players *)
           notify NoticeJoining;;
           detached (onStartGame gameId)
         end)
      (notify NoticeJoinFailed)).

(** *** CharacterCreation *)

(* props *)
Variable gameId : string.

(* rollStat: roll 4d6, sort descending, add the first three *)
Definition rollStat (random : nat -> Q) : Z :=
  let rolls := map (fun i => die (random i)) (seq 0 4) in
  let rolls := merge_sort Z.ge rolls in
  fold_left (fun sum roll => sum + roll) (take 3 rolls) 0.

(* rollStats: six stats, four calls of Math.random each *)
Definition rollStats (random : nat -> Q) : F unit :=
  let newStats :=
    mkStats (rollStat random)
            (rollStat (fun i => random (4 + i)%nat))
            (rollStat (fun i => random (8 + i)%nat))
            (rollStat (fun i => random (12 + i)%nat))
            (rollStat (fun i => random (16 + i)%nat))
            (rollStat (fun i => random (20 + i)%nat)) in
  setStats newStats;;
  setHasRolled true;;
  notify NoticeAttributesRolled.

Definition getStatModifier (stat : Z) : string :=
  let modifier := (stat - 10) / 2 in
  if modifier >=? 0 then "+" +:+ pretty modifier else pretty modifier.

(* createCharacter; [id] is the row id it draws.  Of the row it creates,
   the columns of [Player] are kept. *)
Definition createCharacter (id : string) : F unit :=
  async (
    c ← useFront;
    if String.eqb (trim (characterName c)) "" then
      notify NoticeEnterName;; return_
    else if String.eqb (selectedClass c) "" then
      notify NoticeSelectClass;; return_
    else if negb (hasRolled c) then
      notify NoticeRollFirst;; return_
    else
      setCreating true;;
      try_catch_finally
        ((* Check how many players are already in the game *)
         allPlayers ← await (blink.players_list 100);
         let existingPlayers :=
           List.filter (fun p => String.eqb (player_game_id p) gameId) allPlayers in
         let playerNumber := Z.of_nat (length existingPlayers) + 1 in
         if playerNumber >? 4 then
           notify NoticeGameFull;; return_
         else
           (* Create the player with character data *)
           await (players_create
                    (newPlayer id gameId (user c) playerNumber (trim (characterName c))));;
           (* Update game player count: a column outside [Game] *)
           await (blink.games_update gameId (fun g => g));;
           notify NoticeCharacterCreated;;
           onCharacterCreated)
        (notify NoticeCreateCharacterFailed)
        (setCreating false)).

(* The Create Character button *)
Definition createDisabled (c : Front) : bool :=
  String.eqb (characterName c) "" || String.eqb (selectedClass c) ""
  || negb (hasRolled c) || creating c.

End Components.

End frontend.

(* The form can be submitted. *)
Definition complete_form (trim : string -> string) (c : frontend.Front) : Prop :=
  trim (frontend.characterName c) <> "" /\
  frontend.selectedClass c <> "" /\
  frontend.hasRolled c = true.

(* The players of a game are numbered 1, 2, ..., without gap or repetition. *)
Definition numbered (gameId : string) (d : DB) : Prop :=
  roster gameId d ≡ₚ seqZ 1 (Z.of_nat (length (roster gameId d))).

(* The user has a character in the game. *)
Definition member (userId gameId : string) (d : DB) : Prop :=
  exists k p, db_players d !! k = Some p /\
              player_game_id p = gameId /\ user_id p = userId.

(* The same visit with a new fault plan, for the next handler. *)
Definition next_visit (s : frontend.Visit) (plan : option nat) : frontend.Visit :=
  frontend.mkVisit (frontend.db s) (frontend.front s) plan.

(* Filling in the form: a name, a class, and the roll of the attributes. *)
Definition fill_form (name class : string) (random : nat -> Q) : frontend.F unit :=
  frontend.setCharacterName name;;
  frontend.setSelectedClass class;;
  frontend.rollStats random.



(** Examples for the lobby and the form. *)

(* A trim for the examples: it strips the white space of ASCII. *)
Definition is_blank (a : Ascii.ascii) : bool :=
  let n := Ascii.nat_of_ascii a in
  Nat.eqb n 32 || (Nat.leb 9 n && Nat.leb n 13).

Fixpoint drop_blanks (s : string) : string :=
  match s with
  | String a s' => if is_blank a then drop_blanks s' else s
  | EmptyString => s
  end.

Definition trim_ascii (s : string) : string :=
  String.rev (drop_blanks (String.rev (drop_blanks s))).

(* The two-player session with two more players, and the visits of Carol,
   who has no character yet, and of Alice, who has one. *)
Definition carol : Player := newPlayer "p3" "g1" "uc" 3 "Carol".
Definition dave : Player := newPlayer "p4" "g1" "ud" 4 "Dave".

Definition full_db : DB :=
  mkDB (<["p3" := carol]> (<["p4" := dave]> (db_players demo_db)))
       (db_games demo_db) demo_tiles [].

Definition visit (d : DB) (userId name : string) (plan : option nat) : frontend.Visit :=
  frontend.mkVisit d (frontend.start userId name) plan.

(* The form of Carol, filled in. *)
Definition carol_ready (d : DB) (plan : option nat) : frontend.Visit :=
  next_visit (fill_form " Carol " "Wizard" (fun _ => 1#2) (visit d "uc" "carol" None)).2 plan.

(* The lobby of Carol with a game name typed into the dialog. *)
Definition carol_names_a_game : frontend.Visit :=
  (frontend.setGameName "Crypt Run" (visit demo_db "uc" "carol" None)).2.

(** * Properties *)

(** ** The dice *)

Lemma die_range u : unit_interval u -> 1 <= die u <= 6.
Proof.
  intros [H0 H1]. unfold die.
  assert (Hlo : 0 <= Qfloor (u * 6)).
  { change 0 with (Qfloor 0). apply Qfloor_resp_le.
    apply Qmult_le_0_compat; [exact H0 | discriminate]. }
  assert (Hhi : Qfloor (u * 6) < 6).
  { rewrite Zlt_Qlt. eapply Qle_lt_trans; [apply Qfloor_le|].
    change (inject_Z 6) with (1 * 6)%Q.
    apply Qmult_lt_compat_r; [reflexivity | exact H1]. }
  lia.
Qed.

Lemma die_face k : 1 <= k <= 6 -> unit_interval ((k - 1) # 6) /\ die ((k - 1) # 6) = k.
Proof.
  intros Hk.
  assert (k = 1 \/ k = 2 \/ k = 3 \/ k = 4 \/ k = 5 \/ k = 6) as Hc by lia.
  destruct Hc as [-> | [-> | [-> | [-> | [-> | ->]]]]]; vm_compute; intuition congruence.
Qed.

(** ** Ranges of health and gold *)

Lemma keeps_ret {A} (a : A) (Q : A -> Prop) : Q a -> keeps (mret a) Q.
Proof. intros HQ s Hs. split; [exact Hs|]. intros b [= <-]. exact HQ. Qed.

Lemma keeps_return {A} (Q : A -> Prop) : keeps return_ Q.
Proof. intros s Hs. split; [exact Hs|]. intros b [=]. Qed.

Lemma keeps_weaken {A} (m : M A) (Q R : A -> Prop) :
  keeps m Q -> (forall a, Q a -> R a) -> keeps m R.
Proof.
  intros Hm HQR s Hs. destruct (Hm s Hs) as [H1 H2]. split; [exact H1|].
  intros a Ha. apply HQR, H2, Ha.
Qed.

Lemma keeps_bind {A B} (m : M A) (k : A -> M B) (Q : A -> Prop) (R : B -> Prop) :
  keeps m Q -> (forall a, Q a -> keeps (k a) R) -> keeps (m ≫= k) R.
Proof.
  intros Hm Hk s Hs. destruct (Hm s Hs) as [H1 H2].
  unfold mbind, M_bind. destruct (m s) as [[a| |] s1]; simpl in *.
  - apply (Hk a (H2 a eq_refl) s1 H1).
  - split; [exact H1 | intros b [=]].
  - split; [exact H1 | intros b [=]].
Qed.

Lemma keeps_try {A} (body handler : M A) (fin : M unit) (Q : A -> Prop) :
  keeps body Q -> keeps handler Q -> keeps fin (fun _ => True) ->
  keeps (try_catch_finally body handler fin) Q.
Proof.
  intros Hb Hh Hf s Hs. unfold try_catch_finally.
  destruct (Hb s Hs) as [H1 H2].
  destruct (body s) as [[a| |] s1]; simpl in *.
  - destruct (Hf s1 H1) as [H3 _].
    destruct (fin s1) as [[[]| |] s2]; simpl in *;
      (split; [exact H3 | intros b [=]; subst; auto]).
  - destruct (Hf s1 H1) as [H3 _].
    destruct (fin s1) as [[[]| |] s2]; simpl in *;
      (split; [exact H3 | intros b [=]]).
  - destruct (Hh s1 H1) as [H3 H4].
    destruct (handler s1) as [c s2]; simpl in *.
    destruct (Hf s2 H3) as [H5 _].
    destruct (fin s2) as [[[]| |] s3]; simpl in *;
      (split; [exact H5 | intros b Hb'; subst; auto; try discriminate]).
Qed.

Lemma keeps_async (body : M unit) : keeps body (fun _ => True) -> keeps (async body) (fun _ => True).
Proof.
  intros Hb s Hs. unfold async. destruct (Hb s Hs) as [H1 _].
  destruct (body s) as [[a| |] s1]; simpl in *; auto.
Qed.

Lemma keeps_detached (call : M unit) :
  keeps call (fun _ => True) -> keeps (detached call) (fun _ => True).
Proof. intros Hc s Hs. split; [apply Hc, Hs | auto]. Qed.

Lemma keeps_useClient : keeps useClient client_healthy.
Proof. intros s Hs. split; [exact Hs|]. intros c [= <-]. apply Hs. Qed.

Lemma keeps_setClient (f : Client -> Client) :
  (forall c, client_healthy c -> client_healthy (f c)) ->
  keeps (setClient f) (fun _ => True).
Proof. intros Hf s [Hd Hc]. split; [|auto]. split; [exact Hd | apply Hf, Hc]. Qed.

Lemma keeps_await {A} (call : DB -> A * DB) (Q : A -> Prop) :
  (forall d, db_healthy d -> db_healthy (call d).2 /\ Q (call d).1) ->
  keeps (await call) Q.
Proof.
  intros Hcall s [Hd Hc]. unfold await.
  destruct (faults s) as [[|k]|].
  - split; [split; assumption | intros a [=]].
  - destruct (Hcall _ Hd) as [H1 H2]. destruct (call (db s)) as [a d]; simpl in *.
    split; [split; assumption | intros b [= <-]; exact H2].
  - destruct (Hcall _ Hd) as [H1 H2]. destruct (call (db s)) as [a d]; simpl in *.
    split; [split; assumption | intros b [= <-]; exact H2].
Qed.

Lemma players_update_healthy id f d :
  (forall p, healthy p -> healthy (f p)) ->
  db_healthy d -> db_healthy (blink.players_update id f d).2.
Proof.
  intros Hf Hd. unfold db_healthy in *. simpl.
  apply map_Forall_lookup. intros i x. rewrite lookup_alter.
  case_decide as Hi.
  - subst i. destruct (db_players d !! id) as [y|] eqn:Hy; [|discriminate].
    intros [= <-]. apply Hf. exact (map_Forall_lookup_1 _ _ _ _ Hd Hy).
  - intros Hx. exact (map_Forall_lookup_1 _ _ _ _ Hd Hx).
Qed.

Lemma with_position_healthy n p : healthy p -> healthy (with_position n p).
Proof. intros H. exact H. Qed.

Lemma with_gold_healthy g p : 0 <= g -> healthy p -> healthy (with_gold g p).
Proof. intros Hg [Hh _]. split; [exact Hh | exact Hg]. Qed.

Lemma with_health_gold_clamped h g p :
  healthy (with_health_gold (Z.max 0 (Z.min 100 h)) (Z.max 0 g) p).
Proof. unfold healthy. simpl. lia. Qed.

Lemma players_list_healthy n d x :
  db_healthy d -> x ∈ (blink.players_list n d).1 -> healthy x.
Proof.
  intros Hd Hx. simpl in Hx.
  apply subseteq_take in Hx. rewrite merge_sort_Permutation in Hx.
  apply list_elem_of_fmap in Hx as [[i y] [-> Hy]].
  apply elem_of_map_to_list in Hy.
  exact (map_Forall_lookup_1 _ _ _ _ Hd Hy).
Qed.

Lemma keeps_setter (f : Client -> Client) :
  (forall c, gb_currentPlayer (f c) = gb_currentPlayer c) ->
  keeps (setClient f) (fun _ => True).
Proof.
  intros Hf. apply keeps_setClient. intros c Hc p Hp. apply Hc. rewrite <- Hf. exact Hp.
Qed.

Lemma keeps_setCurrentPlayer o :
  (forall p, o = Some p -> healthy p) -> keeps (setCurrentPlayer o) (fun _ => True).
Proof. intros Ho. apply keeps_setClient. intros c _ p Hp. apply Ho. exact Hp. Qed.

Lemma keeps_write {A} (call : DB -> A * DB) :
  (forall d, db_healthy d -> db_healthy (call d).2) -> keeps (await call) (fun _ => True).
Proof. intros H. apply keeps_await. intros d Hd. split; [apply H, Hd | exact I]. Qed.

Ltac keeps_step :=
  lazymatch goal with
  | |- keeps (_ ≫= _) _ => eapply keeps_bind; [|intros ? ?]
  | |- keeps (mret _) _ => apply keeps_ret; try exact I
  | |- keeps return_ _ => apply keeps_return
  | |- keeps (async _) _ => apply keeps_async
  | |- keeps (detached _) _ => apply keeps_detached
  | |- keeps (try_catch_finally _ _ _) _ => apply keeps_try
  | |- keeps useClient _ => apply keeps_useClient
  | |- keeps (match ?x with _ => _ end) _ => destruct x
  | |- keeps (await (blink.chat_messages_create _)) _ =>
      apply keeps_write; intros ? Hd; exact Hd
  | |- keeps (await (blink.games_update _ _)) _ =>
      apply keeps_write; intros ? Hd; exact Hd
  | |- keeps (await blink.ai_generateText) _ =>
      apply keeps_write; intros ? Hd; exact Hd
  | |- keeps (await (blink.board_tiles_list _ _)) _ =>
      apply keeps_write; intros ? Hd; exact Hd
  | |- keeps (await (blink.games_list _)) _ =>
      apply keeps_write; intros ? Hd; exact Hd
  | |- keeps (await (blink.players_list _)) _ =>
      apply keeps_await with (Q := fun l => forall x, x ∈ l -> healthy x);
      intros ? Hd; split; [exact Hd | intros ? ?; eapply players_list_healthy; eassumption]
  | |- keeps (await (blink.players_update _ _)) _ =>
      apply keeps_write; intros ? Hd; apply players_update_healthy; [|exact Hd]
  | |- keeps (setCurrentPlayer _) _ => apply keeps_setCurrentPlayer
  | |- keeps (setClient _) _ => apply keeps_setter; intros ?; reflexivity
  | |- keeps (?f _) _ => unfold f
  | |- keeps ?f _ => unfold f
  end.

Section HandlersKeep.

Variables (game : Game) (p : Player) (onGameUpdate : M unit).
Hypothesis Hp : healthy p.
Hypothesis HonGameUpdate : keeps onGameUpdate (fun _ => True).

Lemma keeps_rollMovement random : keeps (rollMovement game p random) (fun _ => True).
Proof.
  unfold rollMovement. cbv zeta. repeat keeps_step.
  - intros q Hq. apply with_position_healthy, Hq.
  - intros q Hq. apply with_gold_healthy; [destruct Hp; lia | exact Hq].
Qed.

Lemma keeps_applyTileEffects tile roll :
  keeps (applyTileEffects game p tile roll) (fun _ => True).
Proof.
  unfold applyTileEffects. destruct (tileChanges (tile_type tile) roll) as [hc gc].
  cbv zeta. repeat keeps_step.
  intros q _. apply with_health_gold_clamped.
Qed.

Lemma keeps_rollAction random : keeps (rollAction game p random) (fun _ => True).
Proof.
  unfold rollAction. cbv zeta. repeat keeps_step.
  apply keeps_applyTileEffects.
Qed.

Lemma keeps_endTurn : keeps (endTurn game p onGameUpdate) (fun _ => True).
Proof. unfold endTurn. cbv zeta. repeat keeps_step. exact HonGameUpdate. Qed.

Lemma keeps_click b random : keeps (click game p onGameUpdate b random) (fun _ => True).
Proof.
  unfold click. repeat keeps_step. destruct b; simpl.
  - apply keeps_rollMovement.
  - apply keeps_rollAction.
  - apply keeps_endTurn.
Qed.

End HandlersKeep.

Lemma keeps_loadGameData : keeps loadGameData (fun _ => True).
Proof.
  unfold loadGameData. repeat keeps_step. cbv beta in *.
  intros q Hq.
  apply List.find_some in Hq as [Hq _]. apply filter_In in Hq as [Hq _].
  match goal with H : forall x, x ∈ _ -> healthy x |- _ => apply H end.
  apply list_elem_of_In, Hq.
Qed.

Lemma keeps_perform op : keeps (perform op) (fun _ => True).
Proof.
  intros s Hs. unfold perform.
  pose proof (keeps_ret tt (fun _ : unit => True) I s Hs) as Hnop.
  assert (Hprops : forall A (k : Game -> Player -> A) x,
             turnControls (ui s) k = Some x ->
             exists g q, healthy q /\ x = k g q).
  { intros A k x. unfold turnControls.
    destruct (loading (ui s) || exited (ui s)); [discriminate|].
    destruct (gb_game (ui s)) as [g|]; [|discriminate].
    destruct (gb_currentPlayer (ui s)) as [q|] eqn:Hq; [|discriminate].
    intros [= <-]. exists g, q. split; [apply Hs, Hq | reflexivity]. }
  destruct op as [|random|random| |b random].
  - apply keeps_loadGameData. split; [apply Hs|]. intros q Hq. discriminate Hq.
  - destruct (turnControls _ _) as [m|] eqn:Hm; [|exact Hnop].
    apply Hprops in Hm as (g & q & Hq & ->). simpl. apply keeps_rollMovement; assumption.
  - destruct (turnControls _ _) as [m|] eqn:Hm; [|exact Hnop].
    apply Hprops in Hm as (g & q & Hq & ->). simpl. apply keeps_rollAction; assumption.
  - destruct (turnControls _ _) as [m|] eqn:Hm; [|exact Hnop].
    apply Hprops in Hm as (g & q & Hq & ->). simpl.
    apply keeps_endTurn; [apply keeps_loadGameData | exact Hs].
  - destruct (turnControls _ _) as [m|] eqn:Hm; [|exact Hnop].
    apply Hprops in Hm as (g & q & Hq & ->). simpl.
    apply keeps_click; [assumption | apply keeps_loadGameData | assumption].
Qed.

Lemma step_healthy w e : world_healthy w -> world_healthy (step w e).
Proof.
  intros [Hd Hc]. unfold step.
  destruct (w_clients w !! ev_client e) as [c|] eqn:Hlook; [|split; assumption].
  assert (Hs : run_healthy (mkRun (w_db w) c (ev_faults e))).
  { split; [exact Hd|]. simpl. eapply Forall_lookup_1; eassumption. }
  destruct (keeps_perform (ev_op e) _ Hs) as [[Hd' Hc'] _].
  split; simpl; [exact Hd' | apply Forall_insert; assumption].
Qed.

Lemma run_healthy_world es : forall w, world_healthy w -> world_healthy (run w es).
Proof.
  induction es as [|e es IH]; intros w Hw; simpl; [exact Hw|].
  apply IH, step_healthy, Hw.
Qed.

Lemma initial_world_healthy w : initial_world w -> world_healthy w.
Proof.
  intros [Hrows Hclients]. split.
  - eapply map_Forall_impl; [exact Hrows|]. intros i q (_ & Hh & Hg).
    unfold healthy. lia.
  - eapply Forall_impl; [exact Hclients|]. intros c (g & u & ->) q Hq. discriminate Hq.
Qed.

(** C5. After any sequence of engine operations (board loads, handler
    invocations and button clicks, by any client, with any dice and with any
    remote call failing) on a session whose players are in their initial
    state, every stored player has health within [0,100] and gold at least
    0. *)
Theorem health_and_gold_stay_in_range w es id p :
  initial_world w ->
  db_players (w_db (run w es)) !! id = Some p ->
  0 <= health p <= 100 /\ 0 <= gold p.
Proof.
  intros Hw Hp.
  destruct (run_healthy_world es w (initial_world_healthy w Hw)) as [Hd _].
  exact (map_Forall_lookup_1 _ _ _ _ Hd Hp).
Qed.

(* The two-player session: Alice loads, rolls 4 + 3 and takes an action
   whose fifth remote call throws. *)
Lemma health_and_gold_stay_in_range_witness :
  0 <= health (with_position 7 alice) <= 100 /\ 0 <= gold (with_position 7 alice).
Proof.
  apply (health_and_gold_stay_in_range demo_world
           [mkEvent 0 OpMount None;
            mkEvent 0 (OpClick BtnRollMovement (randoms (1#2) (1#3))) None;
            mkEvent 0 (OpClick BtnTakeAction (randoms (99#100) 0)) (Some 4%nat)]
           "p1").
  - split.
    + apply map_Forall_lookup. intros i q Hq.
      unfold demo_world, demo_db in Hq. simpl in Hq.
      apply lookup_insert_Some in Hq as [[_ <-] | [_ Hq]]; [repeat split|].
      apply lookup_insert_Some in Hq as [[_ <-] | [_ Hq]]; [repeat split|].
      rewrite lookup_empty in Hq. discriminate Hq.
    + repeat constructor; eexists _, _; reflexivity.
  - vm_compute. reflexivity.
Defined.

(** ** Running a handler symbolically *)

Ltac handler_eval :=
  cbv beta iota zeta delta
      [rollMovement rollAction endTurn applyTileEffects click onClick
       rendered disabled perform turnControls
       async detached try_catch_finally mbind M_bind mret M_ret return_
       useClient setClient setGame setPlayers setCurrentPlayer setLoading onExitGame
       setRolling setLastRoll setActionPhase setProcessing toast await
       blink.players_update blink.games_update blink.chat_messages_create
       blink.board_tiles_list blink.ai_generateText blink.games_list blink.players_list
       db ui faults
       db_players db_games db_board_tiles db_chat_messages
       gameId user gb_game gb_players gb_currentPlayer loading exited
       rolling lastRoll actionPhase processing toasts
       rollDice List.map seq fold_left negb orb andb fst snd default from_option id].

Ltac split_if :=
  match goal with
  | |- context [if ?c then _ else _] => destruct c eqn:?
  end.

(* Open the records of a run so that every field is a variable. *)
Ltac open_run s :=
  let d := fresh "d" in let c := fresh "c" in let f := fresh "f" in
  destruct s as [d c f]; destruct d, c; simpl in *; subst.

(** ** Movement *)

Section Movement.

Variables (game : Game) (p : Player) (random : nat -> Q).
Hypothesis Hturn : isMyTurn game p = true.

(* The stored position once the first remote call has gone through. *)
Lemma rollMovement_position s row :
  rolling (ui s) = false ->
  faults s <> Some 0%nat ->
  db_players (db s) !! player_id p = Some row ->
  position <$> db_players (db (rollMovement game p random s).2) !! player_id p
  = Some ((position p + (die (random 0%nat) + die (random 1%nat))) `rem` 100).
Proof.
  intros Hr Hf Hrow.
  open_run s.
  handler_eval. rewrite Hturn. handler_eval. rewrite !Z.add_0_l.
  destruct f as [[|[|[|[|k]]]]|]; [congruence| | | | |];
    try split_if; handler_eval;
    rewrite ?lookup_alter_eq, Hrow; reflexivity.
Qed.

(* What a movement roll that nothing interrupts leaves in the tables. *)
Lemma rollMovement_tables s :
  let d1 := die (random 0%nat) in
  let d2 := die (random 1%nat) in
  let newPosition := (position p + (d1 + d2)) `rem` 100 in
  rolling (ui s) = false ->
  faults s = None ->
  let wraps := position p + (d1 + d2) >=? 100 in
  let s' := (rollMovement game p random s).2 in
  db_players (db s') =
    (if wraps then alter (with_gold (gold p + 200)) (player_id p) else fun m => m)
      (alter (with_position newPosition) (player_id p) (db_players (db s))) /\
  db_chat_messages (db s') =
    db_chat_messages (db s) ++
    mkChatMessage (game_id game) (Some (player_id p)) "action"
      (MovedTo (character_name p) [d1; d2] (d1 + d2) newPosition)
      (MdMovement [d1; d2] (d1 + d2) newPosition)
    :: (if wraps
        then [mkChatMessage (game_id game) (Some (player_id p)) "system"
                (PassedPortal (character_name p)) MdEmpty]
        else []) /\
  db_games (db s') = db_games (db s) /\
  actionPhase (ui s') = true /\
  toasts (ui s') = toasts (ui s) ++ [ToastRolled (d1 + d2) newPosition].
Proof.
  intros d1 d2 newPosition Hr Hf. subst d1 d2 newPosition.
  open_run s.
  handler_eval. rewrite Hturn. handler_eval. rewrite !Z.add_0_l.
  split_if; handler_eval; rewrite <- ?app_assoc; auto 10.
Qed.

End Movement.

(** C3. For a position within the board, a movement roll stores
    [(position + d1 + d2) mod boardSize] for two die faces [d1], [d2] in
    [1,6]; [boardSize] is the 100 the handler has built in.  The position
    is written as soon as the first remote call goes through. *)
Theorem rollMovement_writes_new_position game p random s row :
  unit_interval (random 0%nat) ->
  unit_interval (random 1%nat) ->
  isMyTurn game p = true ->
  rolling (ui s) = false ->
  faults s <> Some 0%nat ->
  db_players (db s) !! player_id p = Some row ->
  0 <= position p <= boardSize - 1 ->
  exists d1 d2,
    1 <= d1 <= 6 /\ 1 <= d2 <= 6 /\
    position <$> db_players (db (rollMovement game p random s).2) !! player_id p
    = Some ((position p + d1 + d2) mod boardSize).
Proof.
  unfold boardSize. intros Hu0 Hu1 Hturn Hr Hf Hrow Hpos.
  exists (die (random 0%nat)), (die (random 1%nat)).
  pose proof (die_range _ Hu0). pose proof (die_range _ Hu1).
  split; [assumption|]. split; [assumption|].
  rewrite (rollMovement_position game p random Hturn s row Hr Hf Hrow).
  rewrite Z.rem_mod_nonneg by lia. f_equal. f_equal. lia.
Qed.

Lemma rollMovement_writes_new_position_witness :
  exists d1 d2,
    1 <= d1 <= 6 /\ 1 <= d2 <= 6 /\
    position <$>
      db_players (db (rollMovement demo_game alice_late (randoms (1#2) (1#3))
                        (loaded late_db "g1" "ua")).2) !! "p1"
    = Some ((95 + d1 + d2) mod 100).
Proof.
  apply (rollMovement_writes_new_position demo_game alice_late (randoms (1#2) (1#3))
           (loaded late_db "g1" "ua") alice_late).
  - split; vm_compute; [discriminate | reflexivity].
  - split; vm_compute; [discriminate | reflexivity].
  - reflexivity.
  - reflexivity.
  - vm_compute. discriminate.
  - vm_compute. reflexivity.
  - unfold boardSize. simpl. lia.
Defined.

(** C4. In a movement roll that runs to its end, the portal bonus is granted
    exactly when the position read by the handler plus the dice total is at
    least [boardSize]: then the stored gold grows by [wrapBonus], 200, and
    one portal message is logged; otherwise the gold is untouched and no
    portal message is logged. *)
Theorem rollMovement_wrap_bonus game p random s row :
  isMyTurn game p = true ->
  rolling (ui s) = false ->
  faults s = None ->
  db_players (db s) !! player_id p = Some row ->
  gold row = gold p ->
  let total := die (random 0%nat) + die (random 1%nat) in
  let s' := (rollMovement game p random s).2 in
  let portal := mkChatMessage (game_id game) (Some (player_id p)) "system"
                  (PassedPortal (character_name p)) MdEmpty in
  exists moved,
    content moved <> PassedPortal (character_name p) /\
    if position p + total >=? boardSize
    then gold <$> db_players (db s') !! player_id p = Some (gold row + wrapBonus) /\
         db_chat_messages (db s') = db_chat_messages (db s) ++ [moved; portal]
    else gold <$> db_players (db s') !! player_id p = Some (gold row) /\
         db_chat_messages (db s') = db_chat_messages (db s) ++ [moved].
Proof.
  intros Hturn Hr Hf Hrow Hgold total s' portal. unfold boardSize, wrapBonus.
  destruct (rollMovement_tables game p random Hturn s Hr Hf) as (Hplayers & Hchat & _).
  fold s' in Hplayers, Hchat. fold total in Hplayers, Hchat.
  match type of Hchat with _ = _ ++ ?m :: _ => exists m end.
  split; [|rewrite Hplayers, Hchat; destruct (position p + total >=? 100)].
  - simpl. discriminate.
  - rewrite !lookup_alter_eq, Hrow. simpl. rewrite Hgold. split; reflexivity.
  - rewrite lookup_alter_eq, Hrow. simpl. split; reflexivity.
Qed.

Lemma rollMovement_wrap_bonus_witness :
  let s' := (rollMovement demo_game alice_late (randoms (1#2) (1#3))
               (loaded late_db "g1" "ua")).2 in
  exists moved,
    content moved <> PassedPortal "Alice" /\
    gold <$> db_players (db s') !! "p1" = Some (10 + 200) /\
    db_chat_messages (db s') =
      [moved; mkChatMessage "g1" (Some "p1") "system" (PassedPortal "Alice") MdEmpty].
Proof.
  apply (rollMovement_wrap_bonus demo_game alice_late (randoms (1#2) (1#3))
           (loaded late_db "g1" "ua") alice_late);
    vm_compute; reflexivity.
Defined.

(** ** Tile effects *)

(** C6. The health and gold changes of a tile are a function of the tile
    type and the roll alone, with the thresholds 15 and 8 for monsters and
    12 and 6 for events; property and start tiles change nothing. *)
Theorem tile_effect_table :
  (tileChanges "monster" 18 = (0, 140) /\
   tileChanges "monster" 5 = (-15, 0) /\
   tileChanges "treasure" 10 = (0, 55) /\
   tileChanges "event" 3 = (0, -20)) /\
  (forall roll,
     tileChanges "monster" roll =
       (if decide (15 <= roll) then (0, 50 + roll * 5)
        else if decide (roll <= 8) then (-15, 0) else (0, 0)) /\
     tileChanges "treasure" roll = (0, 25 + roll * 3) /\
     tileChanges "event" roll =
       (if decide (12 <= roll) then (0, 30)
        else if decide (roll <= 6) then (0, -20) else (0, 0)) /\
     tileChanges "property" roll = (0, 0) /\
     tileChanges "start" roll = (0, 0)) /\
  (forall game p tile roll pos name,
     applyTileEffects game p tile roll =
     applyTileEffects game p (mkTile pos (tile_type tile) name) roll).
Proof.
  split; [repeat split; reflexivity|]. split; [|reflexivity].
  intros roll. unfold tileChanges. simpl.
  repeat split; try reflexivity;
    repeat case_decide;
    repeat match goal with
           | |- context [?a >=? ?b] => destruct (Z.geb_spec a b)
           | |- context [?a <=? ?b] => destruct (Z.leb_spec a b)
           end; try reflexivity; lia.
Qed.

(** ** The action roll *)

Lemma action_rolls_app l k : action_rolls (l ++ k) = action_rolls l ++ action_rolls k.
Proof. apply omap_app. Qed.

Section Action.

Variables (game : Game) (p : Player) (random : nat -> Q).
Hypothesis Hturn : isMyTurn game p = true.

(* What an action roll that nothing interrupts leaves behind, when the
   tile lookup at the position of the snapshot finds [tile]. *)
Lemma rollAction_tables s tile rest :
  let roll := die (random 0%nat) in
  processing (ui s) = false ->
  faults s = None ->
  (blink.board_tiles_list (position p) 1 (db s)).1 = tile :: rest ->
  let s' := (rollAction game p random s).2 in
  let changes := tileChanges (tile_type tile) roll in
  db_players (db s') =
    (if negb (changes.1 =? 0) || negb (changes.2 =? 0)
     then alter (with_health_gold
                   (Z.max 0 (Z.min 100 (health p + changes.1)))
                   (Z.max 0 (gold p + changes.2))) (player_id p)
     else fun m => m) (db_players (db s)) /\
  action_rolls (db_chat_messages (db s')) =
    action_rolls (db_chat_messages (db s)) ++ [roll] /\
  movement_rolls (db_chat_messages (db s')) =
    movement_rolls (db_chat_messages (db s)) /\
  db_games (db s') = db_games (db s) /\
  db_board_tiles (db s') = db_board_tiles (db s) /\
  toasts (ui s') = toasts (ui s) ++ [ToastActionRoll roll] /\
  actionPhase (ui s') = actionPhase (ui s) /\
  processing (ui s') = false.
Proof.
  intros roll Hp Hf Htile. subst roll.
  unfold rollAction.
  change (default 0 (rollDice random 1 !! 0%nat)) with (die (random 0%nat)).
  open_run s.
  handler_eval. rewrite Hturn. handler_eval.
  unfold blink.board_tiles_list in Htile. simpl in Htile. rewrite Htile.
  destruct (tileChanges (tile_type tile) (die (random 0%nat))) as [hc gc].
  handler_eval.
  unfold action_rolls, movement_rolls.
  destruct (hc =? 0); destruct (gc =? 0); handler_eval;
    rewrite !omap_app; simpl; rewrite ?app_nil_r; auto 10.
Qed.

End Action.

(** C1. The action roll is drawn with [rollDice(1)]: when the handler runs
    to its end, the roll it reports, logs and applies to the tile is the
    face of one six-sided die, a value in [1,6]. *)
Theorem rollAction_rolls_one_d6 game p random s tile rest :
  unit_interval (random 0%nat) ->
  isMyTurn game p = true ->
  processing (ui s) = false ->
  faults s = None ->
  (blink.board_tiles_list (position p) 1 (db s)).1 = tile :: rest ->
  exists roll,
    1 <= roll <= 6 /\
    let s' := (rollAction game p random s).2 in
    toasts (ui s') = toasts (ui s) ++ [ToastActionRoll roll] /\
    action_rolls (db_chat_messages (db s')) =
      action_rolls (db_chat_messages (db s)) ++ [roll] /\
    db_players (db s') = db_players (db (applyTileEffects game p tile roll s).2).
Proof.
  intros Hu Hturn Hp Hf Htile. exists (die (random 0%nat)).
  split; [apply die_range, Hu|].
  destruct (rollAction_tables game p random Hturn s tile rest Hp Hf Htile)
    as (Hplayers & Hrolls & _ & _ & _ & Htoasts & _).
  split; [exact Htoasts|]. split; [exact Hrolls|].
  rewrite Hplayers. clear - Hf. open_run s. handler_eval.
  destruct (tileChanges (tile_type tile) (die (random 0%nat))) as [hc gc].
  handler_eval.
  destruct (hc =? 0); destruct (gc =? 0); reflexivity.
Qed.

Lemma rollAction_rolls_one_d6_witness :
  exists roll,
    1 <= roll <= 6 /\
    let s' := (rollAction demo_game alice_late (randoms (99#100) 0)
                 (loaded late_db "g1" "ua")).2 in
    toasts (ui s') = [ToastActionRoll roll] /\
    action_rolls (db_chat_messages (db s')) = [roll] /\
    db_players (db s') =
      db_players (db (applyTileEffects demo_game alice_late
                        (mkTile 95 "event" "Whispering Fog") roll
                        (loaded late_db "g1" "ua")).2).
Proof.
  apply (rollAction_rolls_one_d6 demo_game alice_late (randoms (99#100) 0)
           (loaded late_db "g1" "ua") (mkTile 95 "event" "Whispering Fog") []).
  - split; vm_compute; [discriminate | reflexivity].
  - reflexivity.
  - reflexivity.
  - reflexivity.
  - reflexivity.
Defined.

(** ** Reloading the board *)

Ltac split_find :=
  match goal with
  | |- context [match List.find ?f ?l with _ => _ end] => destruct (List.find f l) eqn:?
  end.

(* Loading reads the tables and writes none of them. *)
Lemma loadGameData_tables s : db (loadGameData s).2 = db s.
Proof.
  unfold loadGameData. open_run s. handler_eval.
  destruct f as [[|[|k]]|]; handler_eval; try reflexivity;
    split_find; handler_eval; reflexivity.
Qed.

(* A reload met while running a handler: only its client part matters. *)
Ltac after_load :=
  match goal with
  | |- context [loadGameData ?x] =>
      let H := fresh in
      pose proof (loadGameData_tables x) as H;
      destruct (loadGameData x) as [[[]| |] []]; simpl in H; subst
  end.

(* rolls[0] on a list that is known. *)
Ltac first_of_list :=
  repeat match goal with
         | |- context [(?x :: ?l) !! 0%nat] => change ((x :: l) !! 0%nat) with (Some x)
         end.

(** ** Ending the turn *)

Section EndTurn.

Variables (game : Game) (p : Player) (onGameUpdate : M unit).
Hypothesis Hturn : isMyTurn game p = true.
Hypothesis HonGameUpdate : forall s, db (onGameUpdate s).2 = db s.

Ltac after_update :=
  match goal with
  | |- context [onGameUpdate ?x] =>
      let H := fresh in
      pose proof (HonGameUpdate x) as H;
      destruct (onGameUpdate x) as [[[]| |] []]; simpl in H; subst
  end.

Lemma endTurn_tables s :
  processing (ui s) = false ->
  faults s <> Some 0%nat ->
  let s' := (endTurn game p onGameUpdate s).2 in
  db_games (db s') = alter (with_turn (nextPlayer game) (nextTurn game)) (game_id game) (db_games (db s)) /\
  db_players (db s') = db_players (db s) /\
  (faults s = None ->
   db_chat_messages (db s') =
     db_chat_messages (db s) ++
     [mkChatMessage (game_id game) None "system"
        (TurnEnded (character_name p) (nextPlayer game)) MdEmpty]).
Proof.
  intros Hp Hf.
  open_run s. handler_eval. rewrite Hturn. handler_eval.
  destruct f as [[|[|k]]|]; [congruence| | |]; handler_eval;
    try after_update; handler_eval; repeat split; auto; discriminate.
Qed.

End EndTurn.

(** ** The turn as the panel offers it *)

Section Turn.

Variables (game : Game) (p : Player).
Hypothesis Hturn : isMyTurn game p = true.

(* Movement roll, then End Turn, nothing in between. *)
Lemma move_then_end s random random' :
  shows_controls (ui s) game p ->
  actionPhase (ui s) = false ->
  rolling (ui s) = false ->
  processing (ui s) = false ->
  faults s = None ->
  let s1 := (perform (OpClick BtnRollMovement random) s).2 in
  let s2 := (perform (OpClick BtnEndTurn random') s1).2 in
  rendered game p (ui s1) BtnEndTurn = true /\
  disabled (ui s1) BtnEndTurn = false /\
  db_games (db s2) =
    alter (with_turn (nextPlayer game) (nextTurn game)) (game_id game) (db_games (db s)) /\
  movement_rolls (db_chat_messages (db s2)) =
    movement_rolls (db_chat_messages (db s)) ++ [[die (random 0%nat); die (random 1%nat)]] /\
  action_rolls (db_chat_messages (db s2)) = action_rolls (db_chat_messages (db s)).
Proof.
  intros (Hl & He & Hg & Hc) Ha Hr Hp Hf.
  open_run s.
  handler_eval. rewrite Hturn. handler_eval. rewrite !Z.add_0_l.
  split_if; handler_eval; rewrite ?Hturn; handler_eval;
    after_load; handler_eval;
    unfold movement_rolls, action_rolls; rewrite !omap_app; simpl;
    rewrite ?app_nil_r; auto 10.
Qed.

(* Two action rolls in a row. *)
Lemma act_twice s r1 r2 tile rest :
  shows_controls (ui s) game p ->
  actionPhase (ui s) = true ->
  processing (ui s) = false ->
  faults s = None ->
  (blink.board_tiles_list (position p) 1 (db s)).1 = tile :: rest ->
  let s1 := (perform (OpClick BtnTakeAction r1) s).2 in
  let s2 := (perform (OpClick BtnTakeAction r2) s1).2 in
  let roll1 := die (r1 0%nat) in
  let roll2 := die (r2 0%nat) in
  rendered game p (ui s1) BtnTakeAction = true /\
  disabled (ui s1) BtnTakeAction = false /\
  toasts (ui s2) = toasts (ui s) ++ [ToastActionRoll roll1; ToastActionRoll roll2] /\
  action_rolls (db_chat_messages (db s2)) =
    action_rolls (db_chat_messages (db s)) ++ [roll1; roll2] /\
  db_players (db s2) = db_players (db (applyTileEffects game p tile roll2 s1).2).
Proof.
  intros (Hl & He & Hg & Hc) Ha Hp Hf Htile.
  open_run s.
  handler_eval. rewrite Hturn. handler_eval. first_of_list. handler_eval.
  unfold blink.board_tiles_list in Htile. simpl in Htile. rewrite !Htile.
  destruct (tileChanges (tile_type tile) (die (r1 0%nat))) as [hc1 gc1].
  handler_eval.
  destruct (hc1 =? 0); destruct (gc1 =? 0); handler_eval;
    rewrite ?Hturn; handler_eval; rewrite !Htile;
    destruct (tileChanges (tile_type tile) (die (r2 0%nat))) as [hc2 gc2];
    handler_eval;
    destruct (hc2 =? 0); destruct (gc2 =? 0); handler_eval;
    unfold action_rolls; rewrite !omap_app; simpl;
    rewrite ?app_nil_r, <- ?app_assoc; auto 10.
Qed.

(* Movement roll, then an action roll, on the same snapshot. *)
Lemma move_then_act s r1 r2 tile rest :
  shows_controls (ui s) game p ->
  actionPhase (ui s) = false ->
  rolling (ui s) = false ->
  processing (ui s) = false ->
  faults s = None ->
  (blink.board_tiles_list (position p) 1 (db s)).1 = tile :: rest ->
  let s1 := (perform (OpClick BtnRollMovement r1) s).2 in
  let s2 := (perform (OpClick BtnTakeAction r2) s1).2 in
  let total := die (r1 0%nat) + die (r1 1%nat) in
  let changes := tileChanges (tile_type tile) (die (r2 0%nat)) in
  db_players (db s1) =
    (if position p + total >=? 100
     then alter (with_gold (gold p + 200)) (player_id p) else fun m => m)
      (alter (with_position ((position p + total) `rem` 100)) (player_id p)
             (db_players (db s))) /\
  db_players (db s2) =
    (if negb (changes.1 =? 0) || negb (changes.2 =? 0)
     then alter (with_health_gold
                   (Z.max 0 (Z.min 100 (health p + changes.1)))
                   (Z.max 0 (gold p + changes.2))) (player_id p)
     else fun m => m) (db_players (db s1)).
Proof.
  intros (Hl & He & Hg & Hc) Ha Hr Hp Hf Htile.
  open_run s.
  handler_eval. rewrite Hturn. handler_eval. rewrite !Z.add_0_l. first_of_list.
  unfold blink.board_tiles_list in Htile. simpl in Htile.
  split_if; handler_eval; rewrite ?Hturn; handler_eval; rewrite !Htile;
    destruct (tileChanges (tile_type tile) (die (r2 0%nat))) as [hc gc];
    handler_eval;
    destruct (hc =? 0); destruct (gc =? 0); handler_eval; auto.
Qed.

End Turn.

(** C10. Right after the movement roll the panel offers End Turn, enabled,
    next to Take Action; clicking it ends the turn (the turn pointer of the
    game row advances) although no action roll was made: over the whole
    turn the log gained one movement roll and no tile encounter. *)
Theorem endTurn_without_action_roll game p random random' s :
  isMyTurn game p = true ->
  shows_controls (ui s) game p ->
  actionPhase (ui s) = false ->
  rolling (ui s) = false ->
  processing (ui s) = false ->
  faults s = None ->
  let s1 := (perform (OpClick BtnRollMovement random) s).2 in
  let s2 := (perform (OpClick BtnEndTurn random') s1).2 in
  rendered game p (ui s1) BtnEndTurn = true /\
  disabled (ui s1) BtnEndTurn = false /\
  db_games (db s2) =
    alter (with_turn (nextPlayer game) (nextTurn game)) (game_id game) (db_games (db s)) /\
  movement_rolls (db_chat_messages (db s2)) =
    movement_rolls (db_chat_messages (db s)) ++ [[die (random 0%nat); die (random 1%nat)]] /\
  action_rolls (db_chat_messages (db s2)) = action_rolls (db_chat_messages (db s)).
Proof.
  intros Hturn Hshow Ha Hr Hp Hf.
  exact (move_then_end game p Hturn s random random' Hshow Ha Hr Hp Hf).
Qed.

Lemma endTurn_without_action_roll_witness :
  let s := loaded demo_db "g1" "ua" in
  let s1 := (perform (OpClick BtnRollMovement (randoms (1#2) (1#3))) s).2 in
  let s2 := (perform (OpClick BtnEndTurn (randoms 0 0)) s1).2 in
  rendered demo_game alice (ui s1) BtnEndTurn = true /\
  disabled (ui s1) BtnEndTurn = false /\
  db_games (db s2) = alter (with_turn 2 1) "g1" (db_games demo_db) /\
  movement_rolls (db_chat_messages (db s2)) = [[4; 3]] /\
  action_rolls (db_chat_messages (db s2)) = [].
Proof.
  apply (endTurn_without_action_roll demo_game alice (randoms (1#2) (1#3)) (randoms 0 0)
           (loaded demo_db "g1" "ua")).
  - reflexivity.
  - repeat split; reflexivity.
  - reflexivity.
  - reflexivity.
  - reflexivity.
  - reflexivity.
Defined.

(* In the action phase the panel has no Roll Movement button. *)
Lemma movement_button_gone game p random s :
  shows_controls (ui s) game p ->
  actionPhase (ui s) = true ->
  perform (OpClick BtnRollMovement random) s = (Normal tt, s).
Proof.
  intros (Hl & He & Hg & Hc) Ha. open_run s. handler_eval.
  destruct (isMyTurn game p); reflexivity.
Qed.

(** C7, as the handler is written.  A second action roll in the same turn
    is accepted: after one has completed, Take Action is still on screen
    and enabled, and clicking it again draws a new roll, logs a second
    tile encounter, reports success and applies the tile effect of the new
    roll.  Only the movement roll is limited: in the action phase a click
    on Roll Movement does nothing. *)
Theorem rollAction_can_be_repeated game p r1 r2 s tile rest :
  isMyTurn game p = true ->
  shows_controls (ui s) game p ->
  actionPhase (ui s) = true ->
  processing (ui s) = false ->
  faults s = None ->
  (blink.board_tiles_list (position p) 1 (db s)).1 = tile :: rest ->
  let s1 := (perform (OpClick BtnTakeAction r1) s).2 in
  let s2 := (perform (OpClick BtnTakeAction r2) s1).2 in
  let roll1 := die (r1 0%nat) in
  let roll2 := die (r2 0%nat) in
  rendered game p (ui s1) BtnTakeAction = true /\
  disabled (ui s1) BtnTakeAction = false /\
  toasts (ui s2) = toasts (ui s) ++ [ToastActionRoll roll1; ToastActionRoll roll2] /\
  action_rolls (db_chat_messages (db s2)) =
    action_rolls (db_chat_messages (db s)) ++ [roll1; roll2] /\
  db_players (db s2) = db_players (db (applyTileEffects game p tile roll2 s1).2) /\
  perform (OpClick BtnRollMovement r1) s = (Normal tt, s).
Proof.
  intros Hturn Hshow Ha Hp Hf Htile.
  pose proof (act_twice game p Hturn s r1 r2 tile rest Hshow Ha Hp Hf Htile)
    as (H1 & H2 & H3 & H4 & H5).
  pose proof (movement_button_gone game p r1 s Hshow Ha) as H6.
  repeat split; assumption.
Qed.

(* The session in which Alice has rolled her movement. *)
Lemma rollAction_can_be_repeated_witness :
  let s := (perform (OpClick BtnRollMovement (randoms (1#2) (1#3)))
              (loaded late_db "g1" "ua")).2 in
  let s1 := (perform (OpClick BtnTakeAction (randoms (99#100) 0)) s).2 in
  let s2 := (perform (OpClick BtnTakeAction (randoms 0 0)) s1).2 in
  rendered demo_game alice_late (ui s1) BtnTakeAction = true /\
  disabled (ui s1) BtnTakeAction = false /\
  toasts (ui s2) = [ToastRolled 7 2; ToastActionRoll 6; ToastActionRoll 1] /\
  action_rolls (db_chat_messages (db s2)) = [6; 1] /\
  db_players (db s2) =
    db_players (db (applyTileEffects demo_game alice_late
                      (mkTile 95 "event" "Whispering Fog") 1 s1).2) /\
  perform (OpClick BtnRollMovement (randoms (99#100) 0)) s = (Normal tt, s).
Proof.
  apply (rollAction_can_be_repeated demo_game alice_late (randoms (99#100) 0) (randoms 0 0)
           ((perform (OpClick BtnRollMovement (randoms (1#2) (1#3)))
               (loaded late_db "g1" "ua")).2)
           (mkTile 95 "event" "Whispering Fog") []).
  - reflexivity.
  - repeat split; reflexivity.
  - reflexivity.
  - reflexivity.
  - reflexivity.
  - reflexivity.
Defined.

(* C7 as stated does not hold: in the two-player session, Alice loads the
   board, rolls her movement and clicks Take Action twice.  The second
   click is not refused: its success toast is shown after the first one,
   no error was raised, and the log holds two tile encounters. *)
Lemma second_rollAction_is_not_refused :
  let w := run demo_world
             [mkEvent 0 OpMount None;
              mkEvent 0 (OpClick BtnRollMovement (randoms (1#2) (1#3))) None;
              mkEvent 0 (OpClick BtnTakeAction (randoms (99#100) 0)) None;
              mkEvent 0 (OpClick BtnTakeAction (randoms 0 0)) None] in
  toasts <$> w_clients w !! 0%nat
    = Some [ToastRolled 7 7; ToastActionRoll 6; ToastActionRoll 1] /\
  existsb is_error <$> (toasts <$> w_clients w !! 0%nat) = Some false /\
  action_rolls (db_chat_messages (w_db w)) = [6; 1].
Proof. vm_compute. repeat split; reflexivity. Qed.

(** C9, with the floor at zero.  When the movement roll grants the portal
    bonus and the action roll that follows changes gold, the tile effect is
    computed from the gold of the snapshot taken before the movement: the
    stored gold ends as [max 0 (gold before the movement + gold change)]
    and the 200 gold of the bonus are gone. *)
Theorem tile_effect_overwrites_wrap_bonus game p r1 r2 s tile rest :
  isMyTurn game p = true ->
  shows_controls (ui s) game p ->
  actionPhase (ui s) = false ->
  rolling (ui s) = false ->
  processing (ui s) = false ->
  faults s = None ->
  db_players (db s) !! player_id p = Some p ->
  (blink.board_tiles_list (position p) 1 (db s)).1 = tile :: rest ->
  position p + (die (r1 0%nat) + die (r1 1%nat)) >= 100 ->
  (tileChanges (tile_type tile) (die (r2 0%nat))).2 <> 0 ->
  let s1 := (perform (OpClick BtnRollMovement r1) s).2 in
  let s2 := (perform (OpClick BtnTakeAction r2) s1).2 in
  let goldChange := (tileChanges (tile_type tile) (die (r2 0%nat))).2 in
  gold <$> db_players (db s1) !! player_id p = Some (gold p + 200) /\
  gold <$> db_players (db s2) !! player_id p = Some (Z.max 0 (gold p + goldChange)).
Proof.
  intros Hturn Hshow Ha Hr Hp Hf Hrow Htile Hwrap Hgc s1 s2 goldChange.
  destruct (move_then_act game p Hturn s r1 r2 tile rest Hshow Ha Hr Hp Hf Htile)
    as [H1 H2].
  fold s1 in H1, H2. fold s2 in H2.
  apply Z.ge_le, Z.geb_le in Hwrap. rewrite Hwrap in H1.
  assert (Hnz : (goldChange =? 0) = false) by (apply Z.eqb_neq; exact Hgc).
  fold goldChange in H2. rewrite Hnz, orb_true_r in H2.
  rewrite H2, H1. rewrite !lookup_alter_eq, Hrow. split; reflexivity.
Qed.

Lemma tile_effect_overwrites_wrap_bonus_witness :
  let s := loaded late_db "g1" "ua" in
  let s1 := (perform (OpClick BtnRollMovement (randoms (1#2) (1#3))) s).2 in
  let s2 := (perform (OpClick BtnTakeAction (randoms 0 0)) s1).2 in
  gold <$> db_players (db s1) !! "p1" = Some (10 + 200) /\
  gold <$> db_players (db s2) !! "p1" = Some (Z.max 0 (10 + -20)).
Proof.
  apply (tile_effect_overwrites_wrap_bonus demo_game alice_late
           (randoms (1#2) (1#3)) (randoms 0 0) (loaded late_db "g1" "ua")
           (mkTile 95 "event" "Whispering Fog") []).
  - reflexivity.
  - repeat split; reflexivity.
  - reflexivity.
  - reflexivity.
  - reflexivity.
  - reflexivity.
  - reflexivity.
  - reflexivity.
  - vm_compute. discriminate.
  - vm_compute. discriminate.
Defined.

(* C9 as stated does not hold when the sum falls below zero: Alice has 10
   gold on tile 95, an event tile.  She rolls 4 + 3, passes the portal
   (the stored gold becomes 210), and her action roll of 1 costs 20 gold.
   The stored gold ends at 0, not at 10 - 20. *)
Lemma lost_bonus_is_floored_at_zero :
  let s := loaded late_db "g1" "ua" in
  let s1 := (perform (OpClick BtnRollMovement (randoms (1#2) (1#3))) s).2 in
  let s2 := (perform (OpClick BtnTakeAction (randoms 0 0)) s1).2 in
  gold <$> db_players (db s) !! "p1" = Some 10 /\
  gold <$> db_players (db s1) !! "p1" = Some 210 /\
  tileChanges "event" (die 0) = (0, -20) /\
  gold <$> db_players (db s2) !! "p1" = Some 0 /\
  gold <$> db_players (db s2) !! "p1" <> Some (10 + -20).
Proof. vm_compute. repeat split; try reflexivity. discriminate. Qed.

(** ** Refusals and failures *)

Section Failures.

Variables (game : Game) (p : Player) (random : nat -> Q).

(* A handler called out of turn returns at once. *)
Lemma refused_out_of_turn s :
  isMyTurn game p = false ->
  rollMovement game p random s = (Normal tt, s) /\
  rollAction game p random s = (Normal tt, s) /\
  endTurn game p loadGameData s = (Normal tt, s).
Proof.
  intros Hturn. open_run s. handler_eval. rewrite Hturn. handler_eval. auto.
Qed.

(* So does a handler that is already running. *)
Lemma refused_while_busy s :
  (rolling (ui s) = true -> rollMovement game p random s = (Normal tt, s)) /\
  (processing (ui s) = true ->
   rollAction game p random s = (Normal tt, s) /\
   endTurn game p loadGameData s = (Normal tt, s)).
Proof.
  split; intros Hbusy; open_run s; handler_eval;
    destruct (isMyTurn game p); handler_eval; auto.
Qed.

(* When the first remote call of a handler throws, no table has changed. *)
Lemma first_call_throws s :
  faults s = Some 0%nat ->
  db (rollMovement game p random s).2 = db s /\
  db (rollAction game p random s).2 = db s /\
  db (endTurn game p loadGameData s).2 = db s.
Proof.
  intros Hf. open_run s. handler_eval.
  destruct (isMyTurn game p); handler_eval;
    destruct rolling0; destruct processing0; handler_eval; auto.
Qed.

(* The action roll writes the player row once, health and gold together. *)
Lemma rollAction_all_or_nothing s :
  let s' := (rollAction game p random s).2 in
  let roll := die (random 0%nat) in
  db_games (db s') = db_games (db s) /\
  (db_players (db s') = db_players (db s) \/
   exists tile,
     tile ∈ db_board_tiles (db s) /\
     db_players (db s') =
       alter (with_health_gold
                (Z.max 0 (Z.min 100 (health p + (tileChanges (tile_type tile) roll).1)))
                (Z.max 0 (gold p + (tileChanges (tile_type tile) roll).2)))
             (player_id p) (db_players (db s))).
Proof.
  open_run s. handler_eval. first_of_list.
  destruct (isMyTurn game p); handler_eval; [|auto].
  destruct processing0; handler_eval; [auto|].
  destruct (take 1 (filter (fun t => tile_position t = position p) db_board_tiles0))
    as [|tile rest] eqn:Htiles.
  { destruct f as [[|k]|]; handler_eval; auto. }
  assert (Hin : tile ∈ db_board_tiles0).
  { assert (Hin : tile ∈ tile :: rest) by apply list_elem_of_here.
    rewrite <- Htiles in Hin. apply subseteq_take in Hin.
    apply list_elem_of_filter in Hin. tauto. }
  split.
  - destruct f as [[|[|[|[|[|[|k]]]]]]|]; handler_eval; auto;
      destruct (tileChanges (tile_type tile) (die (random 0%nat))) as [hc gc];
      handler_eval; destruct (hc =? 0); destruct (gc =? 0); handler_eval; auto.
  - destruct f as [[|[|[|[|[|[|k]]]]]]|]; handler_eval; auto;
      destruct (tileChanges (tile_type tile) (die (random 0%nat))) as [hc gc] eqn:Hch;
      handler_eval; destruct (hc =? 0); destruct (gc =? 0); handler_eval; auto;
      right; exists tile; rewrite Hch; auto.
Qed.

(* Ending the turn writes the game row once, pointer and counter
   together. *)
Lemma endTurn_all_or_nothing s :
  let s' := (endTurn game p loadGameData s).2 in
  db_players (db s') = db_players (db s) /\
  (db_games (db s') = db_games (db s) \/
   db_games (db s') =
     alter (with_turn (nextPlayer game) (nextTurn game)) (game_id game) (db_games (db s))).
Proof.
  open_run s. handler_eval.
  destruct (isMyTurn game p); handler_eval; [|auto].
  destruct processing0; handler_eval; [auto|].
  destruct f as [[|[|k]]|]; handler_eval; auto;
    after_load; handler_eval; auto.
Qed.

End Failures.

(** C8, as the handlers are written.  A handler that is refused (out of
    turn, or already running) changes nothing at all, and a handler whose
    first remote call throws leaves every table as it was.  [rollAction]
    and [endTurn] each write their row in a single call: whatever call
    throws, the player rows and the game rows are either untouched or hold
    the complete change (health and gold together; turn pointer and turn
    counter together). *)
Theorem failure_leaves_single_writes_whole game p random s :
  let sM := (rollMovement game p random s).2 in
  let sA := (rollAction game p random s).2 in
  let sE := (endTurn game p loadGameData s).2 in
  let roll := die (random 0%nat) in
  (isMyTurn game p = false -> sM = s /\ sA = s /\ sE = s) /\
  (rolling (ui s) = true -> sM = s) /\
  (processing (ui s) = true -> sA = s /\ sE = s) /\
  (faults s = Some 0%nat -> db sM = db s /\ db sA = db s /\ db sE = db s) /\
  (db_games (db sA) = db_games (db s) /\
   (db_players (db sA) = db_players (db s) \/
    exists tile,
      tile ∈ db_board_tiles (db s) /\
      db_players (db sA) =
        alter (with_health_gold
                 (Z.max 0 (Z.min 100 (health p + (tileChanges (tile_type tile) roll).1)))
                 (Z.max 0 (gold p + (tileChanges (tile_type tile) roll).2)))
              (player_id p) (db_players (db s)))) /\
  (db_players (db sE) = db_players (db s) /\
   (db_games (db sE) = db_games (db s) \/
    db_games (db sE) =
      alter (with_turn (nextPlayer game) (nextTurn game)) (game_id game) (db_games (db s)))).
Proof.
  intros sM sA sE roll.
  split; [|split; [|split; [|split; [|split]]]].
  - intros Hturn.
    destruct (refused_out_of_turn game p random s Hturn) as (H1 & H2 & H3).
    subst sM sA sE. rewrite H1, H2, H3. auto.
  - intros Hbusy. destruct (refused_while_busy game p random s) as [H1 _].
    subst sM. rewrite (H1 Hbusy). reflexivity.
  - intros Hbusy. destruct (refused_while_busy game p random s) as [_ H2].
    destruct (H2 Hbusy) as [H3 H4]. subst sA sE. rewrite H3, H4. auto.
  - intros Hf. exact (first_call_throws game p random s Hf).
  - exact (rollAction_all_or_nothing game p random s).
  - exact (endTurn_all_or_nothing game p s).
Qed.

(* Bob's board while Alice is on turn, both handlers flagged as running,
   the next remote call bound to throw. *)
Lemma failure_leaves_single_writes_whole_witness :
  let s := mkRun demo_db
             (mkClient "g1" "ub" (Some demo_game) [alice; bob] (Some bob)
                       false false true [] false true [])
             (Some 0%nat) in
  let sM := (rollMovement demo_game bob (randoms 0 0) s).2 in
  let sA := (rollAction demo_game bob (randoms 0 0) s).2 in
  let sE := (endTurn demo_game bob loadGameData s).2 in
  (sM = s /\ sA = s /\ sE = s) /\
  sM = s /\
  (sA = s /\ sE = s) /\
  (db sM = db s /\ db sA = db s /\ db sE = db s).
Proof.
  intros s sM sA sE.
  destruct (failure_leaves_single_writes_whole demo_game bob (randoms 0 0) s)
    as (H1 & H2 & H3 & H4 & _).
  split; [apply H1; reflexivity|].
  split; [apply H2; reflexivity|].
  split; [apply H3; reflexivity|].
  apply H4; reflexivity.
Defined.

(* C8 as stated does not hold for the movement roll: Alice, on tile 95,
   rolls 4 + 3; the position is stored, then the movement message throws.
   The failure is reported, the action phase is not entered and the portal
   bonus is not paid, but the stored position has changed from 95 to 2. *)
Lemma failed_rollMovement_keeps_new_position :
  let s := next_op (loaded late_db "g1" "ua") (Some 1%nat) in
  let s' := (rollMovement demo_game alice_late (randoms (1#2) (1#3)) s).2 in
  toasts (ui s') = [ToastFailedRoll] /\
  actionPhase (ui s') = false /\
  db_players (db s) !! "p1" = Some alice_late /\
  db_players (db s') !! "p1" = Some (with_position 2 alice_late) /\
  db s' <> db s.
Proof.
  intros s s'.
  assert (Hrow : db_players (db s') !! "p1" = Some (with_position 2 alice_late))
    by (vm_compute; reflexivity).
  repeat split; try (vm_compute; reflexivity); try exact Hrow.
  intros Heq. rewrite Heq in Hrow. vm_compute in Hrow. discriminate Hrow.
Qed.

(** C2, evaluated on a session of two players.  Alice and Bob load the
    board and each plays a turn (movement roll, End Turn).  When Bob, the
    last player of the roster, ends his turn the pointer is set to
    [2 rem 4 + 1 = 3], a number that no registered player has, and the turn
    counter is not advanced. *)
Theorem endTurn_leaves_the_roster_of_two :
  let w := run demo_world
             [mkEvent 0 OpMount None;
              mkEvent 1 OpMount None;
              mkEvent 0 (OpClick BtnRollMovement (randoms (1#2) (1#3))) None;
              mkEvent 0 (OpClick BtnEndTurn (randoms 0 0)) None;
              mkEvent 1 OpMount None;
              mkEvent 1 (OpClick BtnRollMovement (randoms (1#2) (1#3))) None;
              mkEvent 1 (OpClick BtnEndTurn (randoms 0 0)) None] in
  roster "g1" (w_db w) = [1; 2] /\
  current_player <$> db_games (w_db w) !! "g1" = Some 3 /\
  current_turn <$> db_games (w_db w) !! "g1" = Some 1 /\
  3 ∉ roster "g1" (w_db w).
Proof.
  intros w.
  assert (Hroster : roster "g1" (w_db w) = [1; 2]) by (vm_compute; reflexivity).
  repeat split; try (vm_compute; reflexivity).
  rewrite Hroster. intros Hin.
  apply list_elem_of_In in Hin. simpl in Hin. intuition discriminate.
Qed.

(** * Further properties of the turn controls *)

(** ** The tile an action roll is resolved on *)

Lemma encounters_app l k : encounters (l ++ k) = encounters l ++ encounters k.
Proof. apply omap_app. Qed.

Lemma listed_tile_position pos limit d tile rest :
  (blink.board_tiles_list pos limit d).1 = tile :: rest -> tile_position tile = pos.
Proof.
  simpl. intros Hl.
  assert (Hin : tile ∈ tile :: rest) by apply list_elem_of_here.
  rewrite <- Hl in Hin. apply subseteq_take in Hin.
  apply list_elem_of_filter in Hin. tauto.
Qed.

Lemma move_then_encounter game p s r1 r2 tile rest :
  isMyTurn game p = true ->
  shows_controls (ui s) game p ->
  actionPhase (ui s) = false ->
  rolling (ui s) = false ->
  processing (ui s) = false ->
  faults s = None ->
  (blink.board_tiles_list (position p) 1 (db s)).1 = tile :: rest ->
  let s1 := (perform (OpClick BtnRollMovement r1) s).2 in
  let s2 := (perform (OpClick BtnTakeAction r2) s1).2 in
  encounters (db_chat_messages (db s2)) =
    encounters (db_chat_messages (db s)) ++ [(die (r2 0%nat), tile)].
Proof.
  intros Hturn (Hl & He & Hg & Hc) Ha Hr Hp Hf Htile.
  open_run s.
  handler_eval. rewrite Hturn. handler_eval. rewrite !Z.add_0_l. first_of_list.
  unfold blink.board_tiles_list in Htile. simpl in Htile.
  destruct (position p + (die (r1 0%nat) + die (r1 1%nat)) >=? 100);
    handler_eval; rewrite ?Hturn; handler_eval; rewrite !Htile;
    destruct (tileChanges (tile_type tile) (die (r2 0%nat))) as [hc gc];
    handler_eval;
    destruct (hc =? 0); destruct (gc =? 0); handler_eval;
    unfold encounters; rewrite !omap_app; simpl; rewrite ?app_nil_r; reflexivity.
Qed.

(** X1. The action roll that follows a movement roll is resolved on the
    tile of the position the handler's snapshot holds, the one the player
    has just left: the logged encounter names a tile at the old position,
    while the stored position is the new one, a different tile. *)
Theorem action_roll_resolves_the_tile_left_behind game p r1 r2 s row tile rest :
  unit_interval (r1 0%nat) ->
  unit_interval (r1 1%nat) ->
  isMyTurn game p = true ->
  shows_controls (ui s) game p ->
  actionPhase (ui s) = false ->
  rolling (ui s) = false ->
  processing (ui s) = false ->
  faults s = None ->
  db_players (db s) !! player_id p = Some row ->
  0 <= position p <= boardSize - 1 ->
  (blink.board_tiles_list (position p) 1 (db s)).1 = tile :: rest ->
  let s1 := (perform (OpClick BtnRollMovement r1) s).2 in
  let s2 := (perform (OpClick BtnTakeAction r2) s1).2 in
  exists landed,
    position <$> db_players (db s2) !! player_id p = Some landed /\
    encounters (db_chat_messages (db s2)) =
      encounters (db_chat_messages (db s)) ++ [(die (r2 0%nat), tile)] /\
    tile_position tile = position p /\
    tile_position tile <> landed.
Proof.
  intros Hu0 Hu1 Hturn Hshow Ha Hr Hp Hf Hrow Hpos Htile s1 s2.
  unfold boardSize in Hpos.
  pose proof (die_range _ Hu0) as Hd0. pose proof (die_range _ Hu1) as Hd1.
  destruct (move_then_act game p Hturn s r1 r2 tile rest Hshow Ha Hr Hp Hf Htile)
    as [H1 H2]. fold s1 in H1, H2. fold s2 in H2.
  pose proof (move_then_encounter game p s r1 r2 tile rest Hturn Hshow Ha Hr Hp Hf Htile)
    as H3. fold s1 s2 in H3.
  pose proof (listed_tile_position _ _ _ _ _ Htile) as Htp.
  exists ((position p + (die (r1 0%nat) + die (r1 1%nat))) `rem` 100).
  split; [|split; [exact H3 | split; [exact Htp|]]].
  - rewrite H2, H1.
    destruct (negb _ || negb _); destruct (_ >=? 100);
      rewrite ?lookup_alter_eq, Hrow; reflexivity.
  - rewrite Htp. rewrite Z.rem_mod_nonneg by lia.
    intros Heq.
    pose proof (Z.div_mod (position p + (die (r1 0%nat) + die (r1 1%nat))) 100) as Hdm.
    pose proof (Z.mod_pos_bound (position p + (die (r1 0%nat) + die (r1 1%nat))) 100) as Hb.
    rewrite <- Heq in Hdm. lia.
Qed.

Lemma action_roll_resolves_the_tile_left_behind_witness :
  let s := loaded late_db "g1" "ua" in
  let s1 := (perform (OpClick BtnRollMovement (randoms (1#2) (1#3))) s).2 in
  let s2 := (perform (OpClick BtnTakeAction (randoms 0 0)) s1).2 in
  exists landed,
    position <$> db_players (db s2) !! "p1" = Some landed /\
    encounters (db_chat_messages (db s2)) =
      encounters (db_chat_messages (db s)) ++ [(1, mkTile 95 "event" "Whispering Fog")] /\
    95 = 95 /\
    95 <> landed.
Proof.
  apply (action_roll_resolves_the_tile_left_behind demo_game alice_late
           (randoms (1#2) (1#3)) (randoms 0 0) (loaded late_db "g1" "ua") alice_late
           (mkTile 95 "event" "Whispering Fog") []).
  - vm_compute. split; [discriminate | reflexivity].
  - vm_compute. split; [discriminate | reflexivity].
  - reflexivity.
  - repeat split; reflexivity.
  - reflexivity.
  - reflexivity.
  - reflexivity.
  - reflexivity.
  - reflexivity.
  - vm_compute. split; discriminate.
  - reflexivity.
Defined.

(** ** Invariants of the tables and of the snapshots, in general *)

Section Maintains.

Variable D : DB -> Prop.
Variable C : Client -> Prop.

Lemma maintains_ret {A} (a : A) (Q : A -> Prop) : Q a -> maintains D C (mret a) Q.
Proof. intros HQ s Hs. split; [exact Hs|]. intros b [= <-]. exact HQ. Qed.

Lemma maintains_return {A} (Q : A -> Prop) : maintains D C return_ Q.
Proof. intros s Hs. split; [exact Hs|]. intros b [=]. Qed.

Lemma maintains_bind {A B} (m : M A) (k : A -> M B) (Q : A -> Prop) (R : B -> Prop) :
  maintains D C m Q -> (forall a, Q a -> maintains D C (k a) R) ->
  maintains D C (m ≫= k) R.
Proof.
  intros Hm Hk s Hs. destruct (Hm s Hs) as [H1 H2].
  unfold mbind, M_bind. destruct (m s) as [[a| |] s1]; simpl in *.
  - apply (Hk a (H2 a eq_refl) s1 H1).
  - split; [exact H1 | intros b [=]].
  - split; [exact H1 | intros b [=]].
Qed.

Lemma maintains_try {A} (body handler : M A) (fin : M unit) (Q : A -> Prop) :
  maintains D C body Q -> maintains D C handler Q ->
  maintains D C fin (fun _ => True) ->
  maintains D C (try_catch_finally body handler fin) Q.
Proof.
  intros Hb Hh Hf s Hs. unfold try_catch_finally.
  destruct (Hb s Hs) as [H1 H2].
  destruct (body s) as [[a| |] s1]; simpl in *.
  - destruct (Hf s1 H1) as [H3 _].
    destruct (fin s1) as [[[]| |] s2]; simpl in *;
      (split; [exact H3 | intros b [=]; subst; auto]).
  - destruct (Hf s1 H1) as [H3 _].
    destruct (fin s1) as [[[]| |] s2]; simpl in *;
      (split; [exact H3 | intros b [=]]).
  - destruct (Hh s1 H1) as [H3 H4].
    destruct (handler s1) as [c s2]; simpl in *.
    destruct (Hf s2 H3) as [H5 _].
    destruct (fin s2) as [[[]| |] s3]; simpl in *;
      (split; [exact H5 | intros b Hb'; subst; auto; try discriminate]).
Qed.

Lemma maintains_async (body : M unit) :
  maintains D C body (fun _ => True) -> maintains D C (async body) (fun _ => True).
Proof.
  intros Hb s Hs. unfold async. destruct (Hb s Hs) as [H1 _].
  destruct (body s) as [[a| |] s1]; simpl in *; auto.
Qed.

Lemma maintains_detached (call : M unit) :
  maintains D C call (fun _ => True) -> maintains D C (detached call) (fun _ => True).
Proof. intros Hc s Hs. split; [apply Hc, Hs | auto]. Qed.

Lemma maintains_useClient : maintains D C useClient C.
Proof. intros s Hs. split; [exact Hs|]. intros c [= <-]. apply Hs. Qed.

Lemma maintains_setClient (f : Client -> Client) :
  (forall c, C c -> C (f c)) -> maintains D C (setClient f) (fun _ => True).
Proof. intros Hf s [Hd Hc]. split; [|auto]. split; [exact Hd | apply Hf, Hc]. Qed.

Lemma maintains_await {A} (call : DB -> A * DB) (Q : A -> Prop) :
  (forall d, D d -> D (call d).2 /\ Q (call d).1) ->
  maintains D C (await call) Q.
Proof.
  intros Hcall s [Hd Hc]. unfold await.
  destruct (faults s) as [[|k]|].
  - split; [split; assumption | intros a [=]].
  - destruct (Hcall _ Hd) as [H1 H2]. destruct (call (db s)) as [a d]; simpl in *.
    split; [split; assumption | intros b [= <-]; exact H2].
  - destruct (Hcall _ Hd) as [H1 H2]. destruct (call (db s)) as [a d]; simpl in *.
    split; [split; assumption | intros b [= <-]; exact H2].
Qed.

Lemma maintains_write {A} (call : DB -> A * DB) :
  (forall d, D d -> D (call d).2) -> maintains D C (await call) (fun _ => True).
Proof. intros H. apply maintains_await. intros d Hd. split; [apply H, Hd | exact I]. Qed.

Lemma maintains_read {A} (call : DB -> A * DB) :
  (forall d, (call d).2 = d) -> maintains D C (await call) (fun _ => True).
Proof.
  intros Hr. apply maintains_await. intros d Hd. rewrite Hr. auto.
Qed.

(* The invariant of a session follows from the one of its operations;
   [ok] says which operations are considered. *)
Lemma world_holds_run (ok : Op -> Prop) :
  (forall op, ok op -> maintains D C (perform op) (fun _ => True)) ->
  forall es w,
    Forall (fun e => ok (ev_op e)) es ->
    world_holds D C w -> world_holds D C (run w es).
Proof.
  intros Hperform. induction es as [|e es IH]; intros w Hes Hw; simpl; [exact Hw|].
  apply Forall_cons in Hes as [He Hes].
  apply IH; [exact Hes|]. destruct Hw as [Hd Hc]. unfold step.
  destruct (w_clients w !! ev_client e) as [c|] eqn:Hlook; [|split; assumption].
  assert (Hs : holds D C (mkRun (w_db w) c (ev_faults e))).
  { split; [exact Hd|]. simpl. eapply Forall_lookup_1; eassumption. }
  destruct (Hperform (ev_op e) He _ Hs) as [[Hd' Hc'] _].
  split; simpl; [exact Hd' | apply Forall_insert; assumption].
Qed.

End Maintains.

Ltac maintains_step :=
  lazymatch goal with
  | |- maintains _ _ (_ ≫= _) _ => eapply maintains_bind; [|intros ? ?]
  | |- maintains _ _ (mret _) _ => apply maintains_ret; try exact I
  | |- maintains _ _ return_ _ => apply maintains_return
  | |- maintains _ _ (async _) _ => apply maintains_async
  | |- maintains _ _ (detached _) _ => apply maintains_detached
  | |- maintains _ _ (try_catch_finally _ _ _) _ => apply maintains_try
  | |- maintains _ _ useClient _ => apply maintains_useClient
  | |- maintains _ _ (match ?x with _ => _ end) _ => destruct x
  | |- maintains _ _ (await (blink.board_tiles_list _ _)) _ =>
      apply maintains_read; reflexivity
  | |- maintains _ _ (await (blink.games_list _)) _ =>
      apply maintains_read; reflexivity
  | |- maintains _ _ (await blink.ai_generateText) _ =>
      apply maintains_read; reflexivity
  | |- maintains _ _ (await _) _ => fail
  | |- maintains _ _ (setCurrentPlayer _) _ => fail
  | |- maintains _ _ (setGame _) _ => fail
  | |- maintains _ _ (setClient _) _ => fail
  | |- maintains _ _ loadGameData _ => fail
  | |- maintains _ _ (?f _) _ => unfold f
  | |- maintains _ _ ?f _ => unfold f
  end.

(** ** The position stays on the board *)

Lemma rows_all_update (P : Player -> Prop) id f d :
  (forall q, P q -> P (f q)) ->
  rows_all P d -> rows_all P (blink.players_update id f d).2.
Proof.
  intros Hf Hd. unfold rows_all in *. simpl.
  apply map_Forall_lookup. intros i x. rewrite lookup_alter.
  case_decide as Hi.
  - subst i. destruct (db_players d !! id) as [y|] eqn:Hy; [|discriminate].
    intros [= <-]. apply Hf. exact (map_Forall_lookup_1 _ _ _ _ Hd Hy).
  - intros Hx. exact (map_Forall_lookup_1 _ _ _ _ Hd Hx).
Qed.

Lemma rows_all_listed (P : Player -> Prop) n d x :
  rows_all P d -> x ∈ (blink.players_list n d).1 -> P x.
Proof.
  intros Hd Hx. simpl in Hx.
  apply subseteq_take in Hx. rewrite merge_sort_Permutation in Hx.
  apply list_elem_of_fmap in Hx as [[i y] [-> Hy]].
  apply elem_of_map_to_list in Hy.
  exact (map_Forall_lookup_1 _ _ _ _ Hd Hy).
Qed.

Lemma moved_on_board pos d1 d2 :
  0 <= pos -> 1 <= d1 <= 6 -> 1 <= d2 <= 6 ->
  0 <= (pos + fold_left Z.add [d1; d2] 0) `rem` 100 <= boardSize - 1.
Proof.
  intros Hpos H1 H2. simpl. unfold boardSize.
  rewrite Z.rem_mod_nonneg by lia.
  pose proof (Z.mod_pos_bound (pos + (0 + d1 + d2)) 100). lia.
Qed.

(* Steps shared by the invariants on player rows. *)
Ltac rows_step P :=
  first
    [ maintains_step
    | lazymatch goal with
      | |- maintains _ _ (await (blink.chat_messages_create _)) _ =>
          apply maintains_write; intros ? Hd; exact Hd
      | |- maintains _ _ (await (blink.games_update _ _)) _ =>
          apply maintains_write; intros ? Hd; exact Hd
      | |- maintains _ _ (await (blink.players_update _ _)) _ =>
          apply maintains_write; intros ? Hd;
          apply (rows_all_update P); [|exact Hd]
      | |- maintains _ _ (await (blink.players_list _)) _ =>
          apply maintains_await with (Q := fun l => forall x, x ∈ l -> P x);
          intros ? Hd; split; [exact Hd | intros ? ?; eapply rows_all_listed; eassumption]
      | |- maintains _ _ (setCurrentPlayer _) _ =>
          apply maintains_setClient; intros ? _ ? ?
      | |- maintains _ _ (setGame _) _ =>
          apply maintains_setClient; intros ? Hc; exact Hc
      | |- maintains _ _ (setClient _) _ =>
          apply maintains_setClient; intros ? Hc; exact Hc
      end ].

Lemma on_board_loadGameData :
  maintains (rows_all on_board) (snapshot_all on_board) loadGameData (fun _ => True).
Proof.
  unfold loadGameData. repeat rows_step on_board. cbv beta in *. simpl in *.
  match goal with H : find _ _ = Some _ |- _ =>
    apply List.find_some in H as [H _]; apply filter_In in H as [H _];
    apply list_elem_of_In in H end.
  auto.
Qed.

Section OnBoard.

Variables (game : Game) (p : Player).
Hypothesis Hp : on_board p.

Lemma on_board_rollMovement random :
  unit_interval (random 0%nat) -> unit_interval (random 1%nat) ->
  maintains (rows_all on_board) (snapshot_all on_board)
            (rollMovement game p random) (fun _ => True).
Proof.
  intros Hu0 Hu1. unfold rollMovement. cbv zeta. repeat rows_step on_board.
  - intros q _. unfold on_board. simpl position.
    apply moved_on_board; [apply Hp | apply die_range, Hu0 | apply die_range, Hu1].
  - intros q Hq. exact Hq.
Qed.

Lemma on_board_rollAction random :
  maintains (rows_all on_board) (snapshot_all on_board)
            (rollAction game p random) (fun _ => True).
Proof.
  unfold rollAction. cbv zeta. repeat rows_step on_board.
  unfold applyTileEffects.
  destruct (tileChanges _ _) as [hc gc]. cbv zeta. repeat rows_step on_board.
  intros q Hq. exact Hq.
Qed.

Lemma on_board_endTurn :
  maintains (rows_all on_board) (snapshot_all on_board)
            (endTurn game p loadGameData) (fun _ => True).
Proof. unfold endTurn. cbv zeta. repeat rows_step on_board. apply on_board_loadGameData. Qed.

Lemma on_board_click b random :
  fair_dice (OpClick b random) ->
  maintains (rows_all on_board) (snapshot_all on_board)
            (click game p loadGameData b random) (fun _ => True).
Proof.
  intros Hdice. unfold click.
  eapply maintains_bind; [apply maintains_useClient|]. intros c _.
  destruct (rendered game p c b && negb (disabled c b)); [|apply maintains_ret; exact I].
  destruct b; simpl.
  - destruct Hdice. apply on_board_rollMovement; assumption.
  - apply on_board_rollAction.
  - apply on_board_endTurn.
Qed.

End OnBoard.

Lemma on_board_perform op :
  fair_dice op ->
  maintains (rows_all on_board) (snapshot_all on_board) (perform op) (fun _ => True).
Proof.
  intros Hdice s Hs. unfold perform.
  pose proof (maintains_ret (rows_all on_board) (snapshot_all on_board)
                tt (fun _ : unit => True) I s Hs) as Hnop.
  assert (Hprops : forall A (k : Game -> Player -> A) x,
             turnControls (ui s) k = Some x ->
             exists g q, on_board q /\ x = k g q).
  { intros A k x. unfold turnControls.
    destruct (loading (ui s) || exited (ui s)); [discriminate|].
    destruct (gb_game (ui s)) as [g|]; [|discriminate].
    destruct (gb_currentPlayer (ui s)) as [q|] eqn:Hq; [|discriminate].
    intros [= <-]. exists g, q. split; [apply Hs, Hq | reflexivity]. }
  destruct op as [|random|random| |b random].
  - apply on_board_loadGameData. split; [apply Hs|]. intros q Hq. discriminate Hq.
  - destruct (turnControls _ _) as [m|] eqn:Hm; [|exact Hnop].
    apply Hprops in Hm as (g & q & Hq & ->). simpl.
    destruct Hdice. apply on_board_rollMovement; assumption.
  - destruct (turnControls _ _) as [m|] eqn:Hm; [|exact Hnop].
    apply Hprops in Hm as (g & q & Hq & ->). simpl.
    apply on_board_rollAction; assumption.
  - destruct (turnControls _ _) as [m|] eqn:Hm; [|exact Hnop].
    apply Hprops in Hm as (g & q & Hq & ->). simpl.
    apply on_board_endTurn; assumption.
  - destruct (turnControls _ _) as [m|] eqn:Hm; [|exact Hnop].
    apply Hprops in Hm as (g & q & Hq & ->). simpl.
    apply on_board_click; assumption.
Qed.

(** X2. Whatever the players do (any clients, any order, any remote call
    failing), as long as the dice come from Math.random, every stored
    position stays on the board, between 0 and 99, from the initial position
    on. *)
Theorem position_stays_on_board w es id p :
  initial_world w ->
  Forall (fun e => fair_dice (ev_op e)) es ->
  db_players (w_db (run w es)) !! id = Some p ->
  0 <= position p <= boardSize - 1.
Proof.
  intros [Hrows Hclients] Hes Hp.
  assert (Hw : world_holds (rows_all on_board) (snapshot_all on_board) w).
  { split.
    - eapply map_Forall_impl; [exact Hrows|]. intros i q (Hq & _).
      unfold on_board, boardSize. lia.
    - eapply Forall_impl; [exact Hclients|]. intros c (g & u & ->) q Hq. discriminate Hq. }
  destruct (world_holds_run _ _ fair_dice on_board_perform es w Hes Hw) as [Hd _].
  exact (map_Forall_lookup_1 _ _ _ _ Hd Hp).
Qed.

Lemma demo_world_initial : initial_world demo_world.
Proof.
  split.
  - apply map_Forall_lookup. intros i q Hq.
    unfold demo_world, demo_db in Hq. simpl in Hq.
    apply lookup_insert_Some in Hq as [[_ <-] | [_ Hq]]; [repeat split|].
    apply lookup_insert_Some in Hq as [[_ <-] | [_ Hq]]; [repeat split|].
    rewrite lookup_empty in Hq. discriminate Hq.
  - repeat constructor; eexists _, _; reflexivity.
Qed.

Lemma position_stays_on_board_witness :
  0 <= position (with_position 7 alice) <= boardSize - 1.
Proof.
  apply (position_stays_on_board demo_world
           [mkEvent 0 OpMount None;
            mkEvent 0 (OpClick BtnRollMovement (randoms (1#2) (1#3))) None;
            mkEvent 1 OpMount None;
            mkEvent 1 (OpRollMovement (randoms (5#6) (5#6))) (Some 1%nat)]
           "p1").
  - exact demo_world_initial.
  - repeat constructor; vm_compute; try discriminate; reflexivity.
  - vm_compute. reflexivity.
Defined.

(** ** What the turn operations leave alone *)














(** ** The snapshot during a turn *)

Ltac snapshot_step :=
  first
    [ maintains_step
    | lazymatch goal with
      | |- maintains _ _ (await _) _ =>
          apply maintains_write; intros ? _; exact I
      | |- maintains _ _ (setClient _) _ =>
          apply maintains_setClient; intros ? Hc; exact Hc
      end ].

(** X4. Neither the movement roll nor the action roll refreshes what the
    board knows about the game and the players: whatever they write and
    however they end, the snapshots of the client are the ones from before
    (only a reload, at End Turn or on mounting, replaces them). *)
Theorem rolls_never_refresh_the_snapshot game p random s :
  same_snapshot (ui s) (ui (rollMovement game p random s).2) /\
  same_snapshot (ui s) (ui (rollAction game p random s).2).
Proof.
  assert (Hs : holds (fun _ => True) (same_snapshot (ui s)) s)
    by (split; [exact I | repeat split]).
  split.
  - assert (Hm : maintains (fun _ => True) (same_snapshot (ui s))
                   (rollMovement game p random) (fun _ => True)).
    { unfold rollMovement. cbv zeta. repeat snapshot_step. }
    apply (Hm s Hs).
  - assert (Hm : maintains (fun _ => True) (same_snapshot (ui s))
                   (rollAction game p random) (fun _ => True)).
    { unfold rollAction. cbv zeta. repeat snapshot_step.
      unfold applyTileEffects. destruct (tileChanges _ _) as [hc gc].
      cbv zeta. repeat snapshot_step. }
    apply (Hm s Hs).
Qed.

(** ** Edge cases of the action roll *)

(** X5. When no tile is stored for the position of the snapshot, the action
    roll reports 'Tile not found', writes nothing and logs nothing, and the
    panel is released again. *)
Theorem rollAction_reports_a_missing_tile game p random s :
  isMyTurn game p = true ->
  processing (ui s) = false ->
  faults s <> Some 0%nat ->
  (blink.board_tiles_list (position p) 1 (db s)).1 = [] ->
  let s' := (rollAction game p random s).2 in
  db s' = db s /\
  toasts (ui s') = toasts (ui s) ++ [ToastTileNotFound] /\
  processing (ui s') = false.
Proof.
  intros Hturn Hp Hf Htile.
  open_run s. handler_eval. rewrite Hturn. handler_eval.
  unfold blink.board_tiles_list in Htile. simpl in Htile.
  destruct f as [[|k]|]; [congruence| |]; handler_eval; rewrite Htile; auto.
Qed.

Lemma rollAction_reports_a_missing_tile_witness :
  let s := loaded bare_db "g1" "ua" in
  let s' := (rollAction demo_game alice (randoms (1#2) 0) s).2 in
  db s' = db s /\
  toasts (ui s') = toasts (ui s) ++ [ToastTileNotFound] /\
  processing (ui s') = false.
Proof.
  apply (rollAction_reports_a_missing_tile demo_game alice (randoms (1#2) 0)
           (loaded bare_db "g1" "ua")).
  - reflexivity.
  - reflexivity.
  - vm_compute. discriminate.
  - reflexivity.
Defined.

(** X6. With the roll as the action handler draws it, a monster tile always
    costs 15 health and never pays gold, an event tile always costs 20 gold,
    and a treasure tile pays between 28 and 43 gold. *)
Theorem outcomes_of_the_roll_as_drawn random :
  unit_interval (random 0%nat) ->
  let actionRoll := default 0 (rollDice random 1 !! 0%nat) in
  tileChanges "monster" actionRoll = (-15, 0) /\
  tileChanges "event" actionRoll = (0, -20) /\
  exists goldChange,
    tileChanges "treasure" actionRoll = (0, goldChange) /\ 28 <= goldChange <= 43.
Proof.
  intros Hu. simpl. pose proof (die_range _ Hu) as Hd.
  unfold tileChanges. simpl.
  destruct (Z.geb_spec (die (random 0%nat)) 15); [lia|].
  destruct (Z.leb_spec (die (random 0%nat)) 8); [|lia].
  destruct (Z.geb_spec (die (random 0%nat)) 12); [lia|].
  destruct (Z.leb_spec (die (random 0%nat)) 6); [|lia].
  split; [reflexivity|]. split; [reflexivity|].
  eexists. split; [reflexivity | lia].
Qed.

Lemma outcomes_of_the_roll_as_drawn_witness :
  tileChanges "monster" 6 = (-15, 0) /\
  tileChanges "event" 6 = (0, -20) /\
  exists goldChange, tileChanges "treasure" 6 = (0, goldChange) /\ 28 <= goldChange <= 43.
Proof.
  apply (outcomes_of_the_roll_as_drawn (randoms (99#100) 0)).
  vm_compute. split; [discriminate | reflexivity].
Defined.

(** X7. An action roll that changes neither health nor gold writes no
    player row, so a portal bonus granted by the movement roll of the same
    turn is kept: the stored gold stays at the gold before the movement
    plus 200. *)
Theorem wrap_bonus_survives_a_roll_without_effect game p r1 r2 s tile rest :
  isMyTurn game p = true ->
  shows_controls (ui s) game p ->
  actionPhase (ui s) = false ->
  rolling (ui s) = false ->
  processing (ui s) = false ->
  faults s = None ->
  db_players (db s) !! player_id p = Some p ->
  (blink.board_tiles_list (position p) 1 (db s)).1 = tile :: rest ->
  position p + (die (r1 0%nat) + die (r1 1%nat)) >= boardSize ->
  tileChanges (tile_type tile) (die (r2 0%nat)) = (0, 0) ->
  let s1 := (perform (OpClick BtnRollMovement r1) s).2 in
  let s2 := (perform (OpClick BtnTakeAction r2) s1).2 in
  db_players (db s2) = db_players (db s1) /\
  gold <$> db_players (db s2) !! player_id p = Some (gold p + wrapBonus).
Proof.
  intros Hturn Hshow Ha Hr Hp Hf Hrow Htile Hwrap Hzero s1 s2.
  unfold boardSize in Hwrap. unfold wrapBonus.
  destruct (move_then_act game p Hturn s r1 r2 tile rest Hshow Ha Hr Hp Hf Htile)
    as [H1 H2].
  fold s1 in H1, H2. fold s2 in H2.
  apply Z.ge_le, Z.geb_le in Hwrap. rewrite Hwrap in H1.
  rewrite Hzero in H2. simpl in H2.
  split; [exact H2|]. rewrite H2, H1, !lookup_alter_eq, Hrow. reflexivity.
Qed.

Lemma wrap_bonus_survives_a_roll_without_effect_witness :
  let s := loaded quiet_db "g1" "ua" in
  let s1 := (perform (OpClick BtnRollMovement (randoms (1#2) (1#3))) s).2 in
  let s2 := (perform (OpClick BtnTakeAction (randoms (99#100) 0)) s1).2 in
  db_players (db s2) = db_players (db s1) /\
  gold <$> db_players (db s2) !! "p1" = Some (10 + wrapBonus).
Proof.
  apply (wrap_bonus_survives_a_roll_without_effect demo_game alice_late
           (randoms (1#2) (1#3)) (randoms (99#100) 0) (loaded quiet_db "g1" "ua")
           (mkTile 95 "property" "Raven Keep") []).
  - reflexivity.
  - repeat split; reflexivity.
  - reflexivity.
  - reflexivity.
  - reflexivity.
  - reflexivity.
  - reflexivity.
  - reflexivity.
  - vm_compute. discriminate.
  - reflexivity.
Defined.

(** ** Ending the turn again *)

Lemma alter_twice {A} (f : A -> A) (id : string) (m : gmap string A) :
  (forall x, f (f x) = f x) -> alter f id (alter f id m) = alter f id m.
Proof.
  intros Hf. apply map_eq. intros i.
  destruct (decide (id = i)) as [<-|Hne].
  - rewrite !lookup_alter_eq.
    destruct (m !! id) as [x|]; [cbn; f_equal; apply Hf | reflexivity].
  - rewrite !lookup_alter_ne by exact Hne. reflexivity.
Qed.

(** X8. When End Turn fails after the game row was written (the turn
    message throws), the panel stays in the action phase with the old
    snapshot, and ending the turn again writes the same pointer and counter:
    the retry does not skip a player. *)
Theorem endTurn_retry_does_not_skip game p random s :
  isMyTurn game p = true ->
  shows_controls (ui s) game p ->
  actionPhase (ui s) = true ->
  processing (ui s) = false ->
  let s1 := (perform (OpClick BtnEndTurn random) (next_op s (Some 1%nat))).2 in
  let s2 := (perform (OpClick BtnEndTurn random) (next_op s1 None)).2 in
  toasts (ui s1) = toasts (ui s) ++ [ToastFailedEndTurn] /\
  rendered game p (ui s1) BtnEndTurn = true /\
  disabled (ui s1) BtnEndTurn = false /\
  db_games (db s1) =
    alter (with_turn (nextPlayer game) (nextTurn game)) (game_id game) (db_games (db s)) /\
  db_games (db s2) = db_games (db s1).
Proof.
  intros Hturn (Hl & He & Hg & Hc) Ha Hp.
  open_run s. unfold next_op.
  handler_eval. rewrite Hturn. handler_eval. rewrite ?Hturn. handler_eval.
  after_load; handler_eval;
    (repeat split; try reflexivity; apply alter_twice; reflexivity).
Qed.

Lemma endTurn_retry_does_not_skip_witness :
  let s := (perform (OpClick BtnRollMovement (randoms (1#2) (1#3))) (loaded demo_db "g1" "ua")).2 in
  let s1 := (perform (OpClick BtnEndTurn (randoms 0 0)) (next_op s (Some 1%nat))).2 in
  let s2 := (perform (OpClick BtnEndTurn (randoms 0 0)) (next_op s1 None)).2 in
  (current_player <$> db_games (db s1) !! "g1") = Some 2 /\
  (current_player <$> db_games (db s2) !! "g1") = Some 2.
Proof.
  pose (s := (perform (OpClick BtnRollMovement (randoms (1#2) (1#3)))
                (loaded demo_db "g1" "ua")).2).
  destruct (endTurn_retry_does_not_skip demo_game alice (randoms 0 0) s)
    as (_ & _ & _ & H1 & H2).
  - reflexivity.
  - repeat split; reflexivity.
  - reflexivity.
  - reflexivity.
  - cbv zeta. fold s. rewrite H2, H1. split; reflexivity.
Defined.

(** ** What a load puts on the board *)

Lemma listed_game_stored n d g :
  g ∈ (blink.games_list n d).1 -> exists k, db_games d !! k = Some g.
Proof.
  simpl. intros Hg. apply subseteq_take in Hg. rewrite merge_sort_Permutation in Hg.
  apply list_elem_of_fmap in Hg as [[k y] [-> Hy]].
  apply elem_of_map_to_list in Hy. exists k. exact Hy.
Qed.







(** ** The turn pointer stays within the four seats *)

Lemma games_all_update (P : Game -> Prop) id f d :
  (forall g, P g -> P (f g)) ->
  games_all P d -> games_all P (blink.games_update id f d).2.
Proof.
  intros Hf Hd. unfold games_all in *. simpl.
  apply map_Forall_lookup. intros i x. rewrite lookup_alter.
  case_decide as Hi.
  - subst i. destruct (db_games d !! id) as [y|] eqn:Hy; [|discriminate].
    intros [= <-]. apply Hf. exact (map_Forall_lookup_1 _ _ _ _ Hd Hy).
  - intros Hx. exact (map_Forall_lookup_1 _ _ _ _ Hd Hx).
Qed.

Lemma games_all_listed (P : Game -> Prop) n d x :
  games_all P d -> x ∈ (blink.games_list n d).1 -> P x.
Proof.
  intros Hd Hx. apply listed_game_stored in Hx as [k Hk].
  exact (map_Forall_lookup_1 _ _ _ _ Hd Hk).
Qed.

Lemma next_seat game :
  seated game -> forall g, seated (with_turn (nextPlayer game) (nextTurn game) g).
Proof.
  intros [Hp Ht] g. unfold seated, with_turn, nextTurn, nextPlayer. simpl.
  rewrite Z.rem_mod_nonneg by lia.
  pose proof (Z.mod_pos_bound (current_player game) 4).
  destruct (_ =? 1); lia.
Qed.

Ltac seats_step :=
  first
    [ lazymatch goal with
      | |- maintains _ _ (await (blink.games_list _)) _ =>
          apply maintains_await with (Q := fun l => forall x, x ∈ l -> seated x);
          intros ? Hd; split; [exact Hd | intros ? ?; eapply games_all_listed; eassumption]
      end
    | maintains_step
    | lazymatch goal with
      | |- maintains _ _ (await (blink.chat_messages_create _)) _ =>
          apply maintains_write; intros ? Hd; exact Hd
      | |- maintains _ _ (await (blink.players_update _ _)) _ =>
          apply maintains_write; intros ? Hd; exact Hd
      | |- maintains _ _ (await (blink.players_list _)) _ =>
          apply maintains_read; reflexivity
      | |- maintains _ _ (await (blink.games_update _ _)) _ =>
          apply maintains_write; intros ? Hd;
          apply (games_all_update seated); [|exact Hd]
      | |- maintains _ _ (setGame _) _ =>
          apply maintains_setClient; intros ? _ ? ?
      | |- maintains _ _ (setCurrentPlayer _) _ =>
          apply maintains_setClient; intros ? Hc; exact Hc
      | |- maintains _ _ (setClient _) _ =>
          apply maintains_setClient; intros ? Hc; exact Hc
      end ].

Lemma seated_loadGameData :
  maintains (games_all seated) (game_snapshot_all seated) loadGameData (fun _ => True).
Proof.
  unfold loadGameData.
  apply maintains_async.
  eapply maintains_bind; [apply maintains_useClient|]. intros c _.
  apply maintains_try; [| repeat seats_step | repeat seats_step].
  eapply maintains_bind; [seats_step|]. intros allGames Hall. cbv beta in Hall.
  destruct (List.find _ allGames) as [gameInfo|] eqn:Hfind; [|repeat seats_step].
  apply List.find_some in Hfind as [Hin _]. apply list_elem_of_In in Hin.
  repeat seats_step. simpl in *.
  match goal with H : Some _ = Some _ |- _ => injection H as <- end. exact (Hall _ Hin).
Qed.

Section Seated.

Variables (game : Game) (p : Player).
Hypothesis Hgame : seated game.

Lemma seated_rollMovement random :
  maintains (games_all seated) (game_snapshot_all seated)
            (rollMovement game p random) (fun _ => True).
Proof. unfold rollMovement. cbv zeta. repeat seats_step. Qed.

Lemma seated_rollAction random :
  maintains (games_all seated) (game_snapshot_all seated)
            (rollAction game p random) (fun _ => True).
Proof.
  unfold rollAction. cbv zeta. repeat seats_step.
  unfold applyTileEffects.
  destruct (tileChanges _ _) as [hc gc]. cbv zeta. repeat seats_step.
Qed.

Lemma seated_endTurn :
  maintains (games_all seated) (game_snapshot_all seated)
            (endTurn game p loadGameData) (fun _ => True).
Proof.
  unfold endTurn. cbv zeta. repeat seats_step.
  - intros g _. apply next_seat, Hgame.
  - apply seated_loadGameData.
Qed.

Lemma seated_click b random :
  maintains (games_all seated) (game_snapshot_all seated)
            (click game p loadGameData b random) (fun _ => True).
Proof.
  unfold click.
  eapply maintains_bind; [apply maintains_useClient|]. intros c _.
  destruct (rendered game p c b && negb (disabled c b)); [|apply maintains_ret; exact I].
  destruct b; simpl.
  - apply seated_rollMovement.
  - apply seated_rollAction.
  - apply seated_endTurn.
Qed.

End Seated.

Lemma seated_perform op :
  maintains (games_all seated) (game_snapshot_all seated) (perform op) (fun _ => True).
Proof.
  intros s Hs. unfold perform.
  pose proof (maintains_ret (games_all seated) (game_snapshot_all seated)
                tt (fun _ : unit => True) I s Hs) as Hnop.
  assert (Hprops : forall A (k : Game -> Player -> A) x,
             turnControls (ui s) k = Some x ->
             exists g q, seated g /\ x = k g q).
  { intros A k x. unfold turnControls.
    destruct (loading (ui s) || exited (ui s)); [discriminate|].
    destruct (gb_game (ui s)) as [g|] eqn:Hg; [|discriminate].
    destruct (gb_currentPlayer (ui s)) as [q|]; [|discriminate].
    intros [= <-]. exists g, q. split; [apply Hs, Hg | reflexivity]. }
  destruct op as [|random|random| |b random].
  - apply seated_loadGameData. split; [apply Hs|]. intros g Hg. discriminate Hg.
  - destruct (turnControls _ _) as [m|] eqn:Hm; [|exact Hnop].
    apply Hprops in Hm as (g & q & Hg & ->). simpl.
    apply seated_rollMovement; assumption.
  - destruct (turnControls _ _) as [m|] eqn:Hm; [|exact Hnop].
    apply Hprops in Hm as (g & q & Hg & ->). simpl.
    apply seated_rollAction; assumption.
  - destruct (turnControls _ _) as [m|] eqn:Hm; [|exact Hnop].
    apply Hprops in Hm as (g & q & Hg & ->). simpl.
    apply seated_endTurn; assumption.
  - destruct (turnControls _ _) as [m|] eqn:Hm; [|exact Hnop].
    apply Hprops in Hm as (g & q & Hg & ->). simpl.
    apply seated_click; assumption.
Qed.

(** X10. Whatever the players do on their boards (any clients, any order,
    any dice, any remote call failing, boards with outdated snapshots
    included), the turn pointer of every game stays one of the seats
    1 ... 4, also in a game with fewer than four players, and its turn
    counter stays at 1 or above, once every stored game starts that way
    (as createGame stores it) and every board has just been mounted. *)
Theorem turn_pointer_stays_within_four_seats w es k g :
  map_Forall (fun _ g0 => seated g0) (db_games (w_db w)) ->
  Forall (fun c => exists gameId user, c = mount gameId user) (w_clients w) ->
  db_games (w_db (run w es)) !! k = Some g ->
  1 <= current_player g <= 4 /\ 1 <= current_turn g.
Proof.
  intros Hgames Hclients Hg.
  assert (Hw : world_holds (games_all seated) (game_snapshot_all seated) w).
  { split; [exact Hgames|].
    eapply Forall_impl; [exact Hclients|]. intros c (g0 & u & ->) q Hq. discriminate Hq. }
  destruct (world_holds_run _ _ (fun _ => True) (fun op _ => seated_perform op) es w
              ltac:(apply Forall_forall; intros; exact I) Hw) as [Hd _].
  exact (map_Forall_lookup_1 _ _ _ _ Hd Hg).
Qed.

(* The two-player session: Bob, whose seat is 2, and Alice both move;
   Alice ends her turn, then Bob ends his, and the pointer goes on to the
   empty seat 3. *)
Lemma turn_pointer_stays_within_four_seats_witness :
  1 <= current_player (with_turn 3 1 demo_game) <= 4 /\
  1 <= current_turn (with_turn 3 1 demo_game).
Proof.
  apply (turn_pointer_stays_within_four_seats demo_world
           [mkEvent 0 OpMount None;
            mkEvent 0 (OpClick BtnRollMovement (randoms (1#2) (1#3))) None;
            mkEvent 0 (OpClick BtnEndTurn (randoms 0 0)) None;
            mkEvent 1 OpMount None;
            mkEvent 1 (OpClick BtnRollMovement (randoms (1#2) (1#3))) None;
            mkEvent 1 (OpClick BtnEndTurn (randoms 0 0)) None]
           "g1").
  - apply map_Forall_lookup. intros i q Hq.
    unfold demo_world, demo_db in Hq. simpl in Hq.
    apply lookup_insert_Some in Hq as [[_ <-] | [_ Hq]]; [repeat split; simpl; lia|].
    rewrite lookup_empty in Hq. discriminate Hq.
  - repeat constructor; eexists _, _; reflexivity.
  - vm_compute. reflexivity.
Defined.

(** ** Rolling the attributes *)

Lemma sum_of_three_highest (a b c d : Z) :
  fold_left (fun sum roll => sum + roll) (take 3 (merge_sort Z.ge [a; b; c; d])) 0
  = a + b + c + d - Z.min a (Z.min b (Z.min c d)).
Proof.
  cbv [merge_sort merge_sort_aux merge_stack merge_list_to_stack list_merge
       merge_stack_flatten].
  repeat (case_decide; simpl); lia.
Qed.

(** X11. An attribute is rolled as four dice of which the lowest is dropped:
    rollStat returns the sum of the four dice minus the smallest of them. *)
Theorem rollStat_drops_the_lowest_die random :
  let d i := die (random i) in
  frontend.rollStat random =
    d 0%nat + d 1%nat + d 2%nat + d 3%nat
    - Z.min (d 0%nat) (Z.min (d 1%nat) (Z.min (d 2%nat) (d 3%nat))).
Proof.
  intros d. unfold frontend.rollStat. simpl map.
  apply sum_of_three_highest.
Qed.

Lemma rollStat_range random :
  (forall i, (i < 4)%nat -> unit_interval (random i)) ->
  3 <= frontend.rollStat random <= 18.
Proof.
  intros Hu. unfold frontend.rollStat. simpl map.
  rewrite sum_of_three_highest.
  pose proof (die_range _ (Hu 0%nat ltac:(lia))).
  pose proof (die_range _ (Hu 1%nat ltac:(lia))).
  pose proof (die_range _ (Hu 2%nat ltac:(lia))).
  pose proof (die_range _ (Hu 3%nat ltac:(lia))).
  lia.
Qed.

Lemma modifier_of_a_rolled_stat st :
  3 <= st <= 18 ->
  frontend.getStatModifier st ∈
    ["-4"; "-3"; "-2"; "-1"; "+0"; "+1"; "+2"; "+3"; "+4"].
Proof.
  intros H.
  assert (st = 3 \/ st = 4 \/ st = 5 \/ st = 6 \/ st = 7 \/ st = 8 \/ st = 9 \/
          st = 10 \/ st = 11 \/ st = 12 \/ st = 13 \/ st = 14 \/ st = 15 \/
          st = 16 \/ st = 17 \/ st = 18) as Hs by lia.
  repeat (destruct Hs as [-> | Hs];
          [apply (bool_decide_unpack _); vm_compute; exact I|]).
  subst st. apply (bool_decide_unpack _); vm_compute; exact I.
Qed.

(** X12. With the dice drawn from Math.random, each of the six attributes
    that rollStats puts on the form lies between 3 and 18, so the modifier
    shown next to it is one of -4 ... +4; the form counts as rolled. *)
Theorem rolled_attributes_are_in_range random s :
  (forall i, (i < 24)%nat -> unit_interval (random i)) ->
  let c := frontend.front (frontend.rollStats random s).2 in
  Forall (fun st => 3 <= st <= 18 /\
                    frontend.getStatModifier st ∈
                      ["-4"; "-3"; "-2"; "-1"; "+0"; "+1"; "+2"; "+3"; "+4"])
         [frontend.strength (frontend.stats c); frontend.dexterity (frontend.stats c);
          frontend.constitution (frontend.stats c); frontend.intelligence (frontend.stats c);
          frontend.wisdom (frontend.stats c); frontend.charisma (frontend.stats c)] /\
  frontend.hasRolled c = true.
Proof.
  intros Hu c. split; [|reflexivity].
  repeat apply Forall_cons_2; try apply Forall_nil_2;
    (assert (forall r, (forall i, (i < 4)%nat -> unit_interval (r i)) ->
       3 <= frontend.rollStat r <= 18 /\
       frontend.getStatModifier (frontend.rollStat r) ∈
         ["-4"; "-3"; "-2"; "-1"; "+0"; "+1"; "+2"; "+3"; "+4"]) as Hr
     by (intros r Hr; split;
         [apply rollStat_range, Hr | apply modifier_of_a_rolled_stat, rollStat_range, Hr]));
    apply Hr; intros i Hi; apply Hu; lia.
Qed.

Lemma rolled_attributes_are_in_range_witness :
  let c := frontend.front (frontend.rollStats (fun _ => 1#2)
             (frontend.mkVisit demo_db (frontend.start "ua" "alice") None)).2 in
  Forall (fun st => 3 <= st <= 18 /\
                    frontend.getStatModifier st ∈
                      ["-4"; "-3"; "-2"; "-1"; "+0"; "+1"; "+2"; "+3"; "+4"])
         [frontend.strength (frontend.stats c); frontend.dexterity (frontend.stats c);
          frontend.constitution (frontend.stats c); frontend.intelligence (frontend.stats c);
          frontend.wisdom (frontend.stats c); frontend.charisma (frontend.stats c)] /\
  frontend.hasRolled c = true.
Proof.
  apply (rolled_attributes_are_in_range (fun _ => 1#2)
           (frontend.mkVisit demo_db (frontend.start "ua" "alice") None)).
  intros i _. vm_compute. split; [discriminate | reflexivity].
Defined.

(** ** Running a handler of the lobby or of the form symbolically *)

Ltac front_eval :=
  cbv beta iota zeta delta
      [frontend.createCharacter frontend.joinGame frontend.createGame frontend.loadGames
       frontend.onStartGame frontend.onCharacterCreated frontend.onBack frontend.onExitGame
       frontend.rollStats
       frontend.async frontend.detached frontend.try_catch_finally frontend.try_catch
       mbind frontend.F_bind mret frontend.F_ret frontend.return_
       frontend.useFront frontend.setFront
       frontend.setGameState frontend.setCurrentGameId frontend.setGames
       frontend.setLobbyLoading frontend.setShowCreateGame frontend.setGameName
       frontend.setLobbyCreating frontend.setCharacterName frontend.setSelectedClass
       frontend.setStats frontend.setCreating frontend.setHasRolled frontend.notify
       frontend.await frontend.players_create frontend.games_create frontend.players_where
       blink.players_list blink.games_list blink.games_update
       frontend.db frontend.front frontend.faults
       frontend.user frontend.gameState frontend.currentGameId frontend.games
       frontend.lobbyLoading frontend.showCreateGame frontend.gameName
       frontend.lobbyCreating frontend.characterName frontend.selectedClass
       frontend.stats frontend.creating frontend.hasRolled frontend.notices
       db_players db_games db_board_tiles db_chat_messages
       negb orb andb fst snd].

Ltac open_visit s :=
  let d := fresh "d" in let c := fresh "c" in let f := fresh "f" in
  destruct s as [d c f]; destruct c; destruct d; simpl in *.

(* The fault plans of a handler with at most three awaited calls. *)
Ltac each_plan f :=
  destruct f as [[|[|[|?]]]|].

(** ** Creating a character *)

(** X13. A form that is not complete (a name of blanks only, no class, or
    attributes not rolled) is refused with one message, the first that
    applies in this order: nothing is listed or written, and the player
    stays on the form. *)
Theorem createCharacter_refuses_an_incomplete_form trim gameId id s :
  let c := frontend.front s in
  trim (frontend.characterName c) = "" \/
  frontend.selectedClass c = "" \/
  frontend.hasRolled c = false ->
  let s' := (frontend.createCharacter trim gameId id s).2 in
  frontend.db s' = frontend.db s /\
  frontend.faults s' = frontend.faults s /\
  frontend.gameState (frontend.front s') = frontend.gameState c /\
  frontend.creating (frontend.front s') = frontend.creating c /\
  frontend.notices (frontend.front s') =
    frontend.notices c ++
      [if String.eqb (trim (frontend.characterName c)) "" then frontend.NoticeEnterName
       else if String.eqb (frontend.selectedClass c) "" then frontend.NoticeSelectClass
       else frontend.NoticeRollFirst].
Proof.
  intros c H s'. subst c s'. open_visit s. front_eval.
  destruct (String.eqb (trim characterName) "") eqn:E1; [repeat split|].
  destruct (String.eqb selectedClass "") eqn:E2; [repeat split|].
  destruct hasRolled; [|repeat split].
  exfalso. destruct H as [H | [H | H]].
  - rewrite H in E1. discriminate E1.
  - rewrite H in E2. discriminate E2.
  - discriminate H.
Qed.


Lemma carol_is_ready d plan : complete_form trim_ascii (frontend.front (carol_ready d plan)).
Proof. repeat split; vm_compute; discriminate. Qed.

(* Carol submits the form before choosing a class. *)
Lemma createCharacter_refuses_an_incomplete_form_witness :
  frontend.notices (frontend.front
    (frontend.createCharacter trim_ascii "g1" "p3" (visit demo_db "uc" "carol" None)).2)
  = [frontend.NoticeSelectClass].
Proof.
  refine (proj2 (proj2 (proj2 (proj2
    (createCharacter_refuses_an_incomplete_form trim_ascii "g1" "p3"
       (visit demo_db "uc" "carol" None) _))))).
  right. left. reflexivity.
Defined.

(** X14. Behind its button, the form can only be refused for its name: the
    Create Character button is disabled while the name is empty, no class
    is chosen, the attributes are not rolled or a creation is running, so a
    click that reaches createCharacter with a form it refuses comes with a
    name made of blanks only, and the message is the one about the name. *)
Theorem createCharacter_behind_its_button trim gameId id s :
  let c := frontend.front s in
  frontend.createDisabled c = false ->
  ~ complete_form trim c ->
  let s' := (frontend.createCharacter trim gameId id s).2 in
  frontend.characterName c <> "" /\
  trim (frontend.characterName c) = "" /\
  frontend.db s' = frontend.db s /\
  frontend.notices (frontend.front s') =
    frontend.notices c ++ [frontend.NoticeEnterName].
Proof.
  intros c Hbutton Hform s'. subst c s'.
  unfold frontend.createDisabled in Hbutton. unfold complete_form in Hform.
  open_visit s.
  apply orb_false_iff in Hbutton as [Hbutton _].
  apply orb_false_iff in Hbutton as [Hbutton Hrolled].
  apply orb_false_iff in Hbutton as [Hname Hclass].
  apply negb_false_iff in Hrolled. apply String.eqb_neq in Hname, Hclass.
  destruct (String.eqb_spec (trim characterName) "") as [Hblank | Hfilled].
  - front_eval. rewrite Hblank. simpl. repeat split; assumption.
  - exfalso. apply Hform. repeat split; assumption.
Qed.

(* Carol has typed a blank as her name. *)
Lemma createCharacter_behind_its_button_witness :
  frontend.notices (frontend.front
    (frontend.createCharacter trim_ascii "g1" "p3"
       (fill_form " " "Wizard" (fun _ => 1#2) (visit demo_db "uc" "carol" None)).2).2)
  = [frontend.NoticeAttributesRolled; frontend.NoticeEnterName].
Proof.
  refine (proj2 (proj2 (proj2
    (createCharacter_behind_its_button trim_ascii "g1" "p3"
       (fill_form " " "Wizard" (fun _ => 1#2) (visit demo_db "uc" "carol" None)).2 _ _)))).
  - reflexivity.
  - intros (H & _). apply H. reflexivity.
Defined.

Lemma filter_Permutation {A} (f : A -> bool) (l l' : list A) :
  l ≡ₚ l' -> List.filter f l ≡ₚ List.filter f l'.
Proof.
  induction 1 as [|x l l' _ IH|x y l|l l' l'' _ IH1 _ IH2]; simpl.
  - reflexivity.
  - destruct (f x); [constructor|]; exact IH.
  - destruct (f x), (f y); try reflexivity. apply perm_swap.
  - etransitivity; eassumption.
Qed.

Lemma players_list_all d n :
  (size (db_players d) <= n)%nat ->
  (blink.players_list n d).1 ≡ₚ (map_to_list (db_players d)).*2.
Proof.
  intros Hn. unfold blink.players_list. simpl.
  rewrite take_ge; [apply merge_sort_Permutation|].
  rewrite (Permutation_length (merge_sort_Permutation _ _)), length_fmap.
  rewrite length_map_to_list. exact Hn.
Qed.

Lemma count_listed gameId d :
  (size (db_players d) <= 100)%nat ->
  length (List.filter (fun p => String.eqb (player_game_id p) gameId)
            (blink.players_list 100 d).1) = length (roster gameId d).
Proof.
  intros Hn. unfold roster. rewrite length_fmap.
  apply Permutation_length, filter_Permutation, players_list_all, Hn.
Qed.

Lemma roster_insert g d row :
  db_players d !! player_id row = None ->
  roster g (frontend.players_create row d).2 ≡ₚ
    if String.eqb (player_game_id row) g then roster g d ++ [player_number row]
    else roster g d.
Proof.
  intros Hfresh. unfold roster, frontend.players_create. simpl.
  pose proof (map_to_list_insert (db_players d) _ row Hfresh) as Hp.
  apply (fmap_Permutation snd) in Hp.
  apply (filter_Permutation (fun p => String.eqb (player_game_id p) g)) in Hp.
  apply (fmap_Permutation player_number) in Hp.
  rewrite Hp. simpl.
  destruct (String.eqb (player_game_id row) g); [|reflexivity].
  simpl. apply Permutation_cons_append.
Qed.

Lemma createCharacter_stored trim gameId id s :
  let c := frontend.front s in
  let d := frontend.db s in
  complete_form trim c ->
  frontend.faults s = None ->
  (size (db_players d) <= 100)%nat ->
  (length (roster gameId d) < 4)%nat ->
  let s' := (frontend.createCharacter trim gameId id s).2 in
  let row := newPlayer id gameId (frontend.user c)
               (Z.of_nat (length (roster gameId d)) + 1)
               (trim (frontend.characterName c)) in
  frontend.db s' = mkDB (<[id := row]> (db_players d)) (db_games d)
                        (db_board_tiles d) (db_chat_messages d) /\
  frontend.user (frontend.front s') = frontend.user c /\
  frontend.currentGameId (frontend.front s') = frontend.currentGameId c /\
  frontend.gameState (frontend.front s') = frontend.StGame /\
  frontend.creating (frontend.front s') = false /\
  frontend.notices (frontend.front s') =
    frontend.notices c ++ [frontend.NoticeCharacterCreated].
Proof.
  intros c d (Hname & Hclass & Hrolled) Hf Hsize Hlen s' row.
  pose proof (count_listed gameId d Hsize) as Hcount.
  subst c d s' row. open_visit s. subst f. front_eval.
  apply String.eqb_neq in Hname, Hclass. rewrite Hname, Hclass. subst hasRolled.
  front_eval. cbv beta iota delta [blink.players_list fst snd] in Hcount.
  rewrite Hcount.
  destruct (Z.of_nat (length _) + 1 >? 4) eqn:E; [lia|].
  front_eval.
  rewrite alter_id by reflexivity.
  repeat split.
Qed.



(** X16. A complete form submitted for a game that already has four
    players is refused with 'Game is full': no row is written and the
    player stays on the form, which is released again. *)
Theorem createCharacter_refuses_a_fifth_player trim gameId id s :
  let c := frontend.front s in
  let d := frontend.db s in
  complete_form trim c ->
  frontend.faults s <> Some 0%nat ->
  (size (db_players d) <= 100)%nat ->
  (4 <= length (roster gameId d))%nat ->
  let s' := (frontend.createCharacter trim gameId id s).2 in
  frontend.db s' = d /\
  frontend.gameState (frontend.front s') = frontend.gameState c /\
  frontend.creating (frontend.front s') = false /\
  frontend.notices (frontend.front s') = frontend.notices c ++ [frontend.NoticeGameFull].
Proof.
  intros c d (Hname & Hclass & Hrolled) Hf Hsize Hlen s'.
  pose proof (count_listed gameId d Hsize) as Hcount.
  cbv beta iota delta [blink.players_list fst snd] in Hcount.
  subst c d s'. open_visit s.
  apply String.eqb_neq in Hname, Hclass. subst hasRolled.
  destruct f as [[|k]|]; [congruence| |];
    front_eval; rewrite Hname, Hclass; front_eval; rewrite Hcount;
    (destruct (Z.of_nat (length _) + 1 >? 4) eqn:E; [|lia]);
    repeat split.
Qed.

(* A fifth player for the game of four; the listing is the second remote
   call that would fail. *)
Lemma createCharacter_refuses_a_fifth_player_witness :
  let s' := (frontend.createCharacter trim_ascii "g1" "p5" (carol_ready full_db (Some 1%nat))).2 in
  frontend.db s' = full_db /\
  frontend.notices (frontend.front s') =
    [frontend.NoticeAttributesRolled; frontend.NoticeGameFull].
Proof.
  pose proof (createCharacter_refuses_a_fifth_player trim_ascii "g1" "p5"
                (carol_ready full_db (Some 1%nat)) (carol_is_ready full_db (Some 1%nat))
                ltac:(discriminate) ltac:(vm_compute; lia) ltac:(vm_compute; lia)) as H.
  cbv zeta in H. destruct H as (H1 & _ & _ & H2). split; [exact H1 | exact H2].
Defined.

(* What a submission can do to the tables: nothing, or the one new row. *)
Lemma createCharacter_tables trim gameId id s :
  let c := frontend.front s in
  let d := frontend.db s in
  (size (db_players d) <= 100)%nat ->
  let s' := (frontend.createCharacter trim gameId id s).2 in
  frontend.db s' = d \/
  ((length (roster gameId d) < 4)%nat /\
   frontend.db s' =
     (frontend.players_create
        (newPlayer id gameId (frontend.user c)
           (Z.of_nat (length (roster gameId d)) + 1)
           (trim (frontend.characterName c))) d).2).
Proof.
  intros c d Hsize s'.
  pose proof (count_listed gameId d Hsize) as Hcount.
  cbv beta iota delta [blink.players_list fst snd] in Hcount.
  subst c d s'. open_visit s. front_eval.
  destruct (String.eqb (trim characterName) ""); [left; reflexivity|].
  destruct (String.eqb selectedClass ""); [left; reflexivity|].
  destruct hasRolled; [|left; reflexivity].
  each_plan f; front_eval; try (left; reflexivity);
    rewrite Hcount;
    (destruct (Z.of_nat (length _) + 1 >? 4) eqn:E; [left; reflexivity|]);
    front_eval; try (left; reflexivity);
    right; (split; [lia|]); unfold frontend.players_create; simpl;
    rewrite ?alter_id by reflexivity; reflexivity.
Qed.

(** X17. However a submission ends (refused, interrupted by a failing
    remote call, or stored), it keeps the players of every game numbered
    1, 2, ... without gap or repetition, and it never brings a game beyond
    four players.  (The row id it draws is new, and at most 100 player rows
    are stored.) *)
Theorem createCharacter_keeps_the_rosters_numbered trim gameId id s g :
  let d := frontend.db s in
  db_players d !! id = None ->
  (size (db_players d) <= 100)%nat ->
  numbered g d ->
  let d' := frontend.db (frontend.createCharacter trim gameId id s).2 in
  numbered g d' /\
  (length (roster g d') <= Nat.max 4 (length (roster g d)))%nat.
Proof.
  intros d Hfresh Hsize Hnum d'.
  destruct (createCharacter_tables trim gameId id s Hsize) as [H | [Hlen H]];
    fold d in H; fold d' in H; rewrite H.
  { split; [exact Hnum | lia]. }
  change (frontend.db s) with d in Hlen.
  set (row := newPlayer id gameId (frontend.user (frontend.front s))
                (Z.of_nat (length (roster gameId d)) + 1)
                (trim (frontend.characterName (frontend.front s)))) in *.
  pose proof (roster_insert g d row Hfresh) as Hr.
  change (player_game_id row) with gameId in Hr.
  change (player_number row) with (Z.of_nat (length (roster gameId d)) + 1) in Hr.
  set (d1 := (frontend.players_create row d).2) in *.
  destruct (String.eqb_spec gameId g) as [<- | Hg].
  - assert (Hl : length (roster gameId d1) = S (length (roster gameId d))).
    { rewrite (Permutation_length Hr), length_app. simpl. lia. }
    split; [|lia].
    unfold numbered. rewrite Hl, seqZ_S, Hr.
    apply Permutation_app; [exact Hnum|].
    replace (1 + Z.of_nat (length (roster gameId d)))
      with (Z.of_nat (length (roster gameId d)) + 1) by lia.
    reflexivity.
  - unfold numbered. rewrite (Permutation_length Hr), Hr.
    split; [exact Hnum | lia].
Qed.

Lemma createCharacter_keeps_the_rosters_numbered_witness :
  let d' := frontend.db
    (frontend.createCharacter trim_ascii "g1" "p3" (carol_ready demo_db None)).2 in
  numbered "g1" d' /\ (length (roster "g1" d') <= Nat.max 4 2)%nat.
Proof.
  apply (createCharacter_keeps_the_rosters_numbered trim_ascii "g1" "p3"
           (carol_ready demo_db None) "g1").
  - reflexivity.
  - vm_compute. lia.
  - unfold numbered. vm_compute. reflexivity.
Defined.

(** X18. When the update of the player count fails after the player row
    was created, the form reports 'Failed to create character' and stays
    open, but the row is stored: the game has one player more. *)
Theorem createCharacter_failure_after_the_row_is_stored trim gameId id s :
  let c := frontend.front s in
  let d := frontend.db s in
  complete_form trim c ->
  frontend.faults s = Some 2%nat ->
  (size (db_players d) <= 100)%nat ->
  (length (roster gameId d) < 4)%nat ->
  let s' := (frontend.createCharacter trim gameId id s).2 in
  db_players (frontend.db s') !! id =
    Some (newPlayer id gameId (frontend.user c)
            (Z.of_nat (length (roster gameId d)) + 1)
            (trim (frontend.characterName c))) /\
  frontend.gameState (frontend.front s') = frontend.gameState c /\
  frontend.creating (frontend.front s') = false /\
  frontend.notices (frontend.front s') =
    frontend.notices c ++ [frontend.NoticeCreateCharacterFailed].
Proof.
  intros c d (Hname & Hclass & Hrolled) Hf Hsize Hlen s'.
  pose proof (count_listed gameId d Hsize) as Hcount.
  cbv beta iota delta [blink.players_list fst snd] in Hcount.
  subst c d s'. open_visit s. subst f.
  apply String.eqb_neq in Hname, Hclass. subst hasRolled.
  front_eval. rewrite Hname, Hclass. front_eval. rewrite Hcount.
  destruct (Z.of_nat (length _) + 1 >? 4) eqn:E; [lia|].
  front_eval. rewrite lookup_insert_eq. repeat split.
Qed.

(* The update of the player count, the third remote call, fails. *)
Lemma createCharacter_failure_after_the_row_is_stored_witness :
  let s' := (frontend.createCharacter trim_ascii "g1" "p3"
               (carol_ready demo_db (Some 2%nat))).2 in
  db_players (frontend.db s') !! "p3" = Some carol /\
  frontend.gameState (frontend.front s') = frontend.StLobby /\
  frontend.creating (frontend.front s') = false /\
  frontend.notices (frontend.front s') =
    [frontend.NoticeAttributesRolled; frontend.NoticeCreateCharacterFailed].
Proof.
  apply (createCharacter_failure_after_the_row_is_stored trim_ascii "g1" "p3"
           (carol_ready demo_db (Some 2%nat))).
  - apply carol_is_ready.
  - reflexivity.
  - vm_compute. lia.
  - vm_compute. lia.
Defined.

(** ** The lobby *)

Lemma stored_values {A} (m : gmap string A) (x : A) :
  x ∈ (map_to_list m).*2 <-> exists k, m !! k = Some x.
Proof.
  rewrite list_elem_of_fmap. split.
  - intros [[k y] [-> Hin]]. exists k. apply elem_of_map_to_list in Hin. exact Hin.
  - intros [k Hk]. exists (k, x). split; [reflexivity|].
    apply elem_of_map_to_list. exact Hk.
Qed.

Lemma filter_nil_iff {A} (f : A -> bool) (l : list A) :
  List.filter f l = [] <-> forall x, x ∈ l -> f x = false.
Proof.
  induction l as [|a l IH]; simpl.
  - split; [intros _ x Hx; inversion Hx | reflexivity].
  - destruct (f a) eqn:E.
    + split; [discriminate|]. intros H. rewrite H in E; [discriminate | left].
    + rewrite IH. split.
      * intros H x Hx. apply elem_of_cons in Hx as [-> | Hx]; [exact E | apply H, Hx].
      * intros H x Hx. apply H. right. exact Hx.
Qed.

Lemma count_members gameId d :
  length (frontend.players_where
            (fun p => String.eqb (player_game_id p) gameId) d).1
  = length (roster gameId d).
Proof. unfold roster, frontend.players_where. simpl. rewrite length_fmap. reflexivity. Qed.

(* The lookup of [App]: is there a row of the user in the game? *)
Lemma lookup_member userId gameId d :
  (0 <? length (frontend.players_where
                  (fun p => String.eqb (player_game_id p) gameId
                            && String.eqb (user_id p) userId) d).1)%nat = true
  <-> member userId gameId d.
Proof.
  unfold frontend.players_where, member. simpl. split.
  - intros H.
    destruct (List.filter _ _) as [|p l] eqn:E; [discriminate H|].
    assert (Hp : In p (List.filter
      (fun p => String.eqb (player_game_id p) gameId && String.eqb (user_id p) userId)
      (map_to_list (db_players d)).*2)) by (rewrite E; left; reflexivity).
    apply filter_In in Hp as [Hin Hc].
    apply andb_true_iff in Hc as [Hg Hu].
    apply String.eqb_eq in Hg, Hu.
    apply list_elem_of_In, stored_values in Hin as [k Hk].
    exists k, p. auto.
  - intros (k & p & Hk & Hg & Hu).
    destruct (List.filter _ _) as [|q l] eqn:E; [|reflexivity].
    exfalso. rewrite filter_nil_iff in E.
    specialize (E p). rewrite Hg, Hu, !String.eqb_refl in E.
    discriminate E. apply stored_values. exists k. exact Hk.
Qed.

(* The same question as the lobby asks it, on the rows of the game. *)
Lemma find_member userId gameId d :
  is_Some (List.find (fun p => String.eqb (user_id p) userId)
             (frontend.players_where
                (fun p => String.eqb (player_game_id p) gameId) d).1)
  <-> member userId gameId d.
Proof.
  unfold frontend.players_where, member. simpl. split.
  - intros [p Hp]. apply find_some in Hp as [Hin Hu].
    apply filter_In in Hin as [Hin Hg].
    apply String.eqb_eq in Hg, Hu.
    apply list_elem_of_In, stored_values in Hin as [k Hk].
    exists k, p. auto.
  - intros (k & p & Hk & Hg & Hu).
    destruct (List.find _ _) eqn:E; [eexists; reflexivity|]. exfalso.
    eapply find_none in E.
    + rewrite Hu, String.eqb_refl in E. discriminate E.
    + apply filter_In. split.
      * apply list_elem_of_In, stored_values. exists k. exact Hk.
      * rewrite Hg. apply String.eqb_refl.
Qed.

(** X19. App's routing: when the lookup goes through, the user is taken to
    the board if and only if a player row of theirs is stored for the game,
    and to the character creation otherwise; when the lookup fails, to the
    character creation in any case.  The tables are not written. *)
Theorem onStartGame_routes_by_membership gameId s :
  let s' := (frontend.onStartGame gameId s).2 in
  frontend.db s' = frontend.db s /\
  frontend.currentGameId (frontend.front s') = Some gameId /\
  (frontend.faults s = Some 0%nat ->
   frontend.gameState (frontend.front s') = frontend.StCharacterCreation) /\
  (frontend.faults s <> Some 0%nat ->
   (member (frontend.user (frontend.front s)) gameId (frontend.db s) ->
    frontend.gameState (frontend.front s') = frontend.StGame) /\
   (~ member (frontend.user (frontend.front s)) gameId (frontend.db s) ->
    frontend.gameState (frontend.front s') = frontend.StCharacterCreation)).
Proof.
  intros s'. subst s'.
  pose proof (lookup_member (frontend.user (frontend.front s)) gameId (frontend.db s)) as Hm.
  cbv beta iota delta [frontend.players_where fst snd] in Hm.
  open_visit s.
  destruct f as [[|k]|]; front_eval.
  - repeat split; try congruence.
  - destruct (0 <? length _)%nat; front_eval; repeat split; try congruence;
      intros; try reflexivity; exfalso; intuition congruence.
  - destruct (0 <? length _)%nat; front_eval; repeat split; try congruence;
      intros; try reflexivity; exfalso; intuition congruence.
Qed.

(** X20. The lobby refuses to open a game that has four players, also to
    the players of that game: Join shows 'Game is full' and leaves the user
    in the lobby, whether or not one of the four characters is theirs. *)
Theorem joinGame_refuses_a_full_game gameId s :
  frontend.faults s <> Some 0%nat ->
  (4 <= length (roster gameId (frontend.db s)))%nat ->
  let s' := (frontend.joinGame gameId s).2 in
  frontend.db s' = frontend.db s /\
  frontend.gameState (frontend.front s') = frontend.gameState (frontend.front s) /\
  frontend.currentGameId (frontend.front s') = frontend.currentGameId (frontend.front s) /\
  frontend.notices (frontend.front s') =
    frontend.notices (frontend.front s) ++ [frontend.NoticeGameFull].
Proof.
  intros Hf Hlen s'. subst s'.
  pose proof (count_members gameId (frontend.db s)) as Hc.
  cbv beta iota delta [frontend.players_where fst snd] in Hc.
  open_visit s.
  destruct f as [[|k]|]; [congruence| |];
    front_eval; rewrite Hc;
    (destruct (4 <=? length _)%nat eqn:E; [|apply Nat.leb_gt in E; lia]);
    repeat split.
Qed.

(* Alice, player 1 of the full game, tries to get back in. *)
Lemma joinGame_refuses_a_full_game_witness :
  let s := visit full_db "ua" "alice" None in
  let s' := (frontend.joinGame "g1" s).2 in
  member "ua" "g1" full_db /\
  frontend.gameState (frontend.front s') = frontend.StLobby /\
  frontend.notices (frontend.front s') = [frontend.NoticeGameFull].
Proof.
  pose proof (joinGame_refuses_a_full_game "g1" (visit full_db "ua" "alice" None)
                ltac:(discriminate) ltac:(vm_compute; lia)) as H.
  cbv zeta in H. destruct H as (_ & H1 & _ & H2).
  split; [|split; [exact H1 | exact H2]].
  exists "p1", alice. repeat split.
Defined.

(** X21. Joining a game with fewer than four players, with no remote call
    failing: a user who has a character in the game is told 'Rejoining
    game...' and taken to the board; any other user is told 'Joining
    game...' and taken to the character creation.  Nothing is written. *)
Theorem joinGame_routes_by_membership gameId s :
  frontend.faults s = None ->
  (length (roster gameId (frontend.db s)) < 4)%nat ->
  let c := frontend.front s in
  let s' := (frontend.joinGame gameId s).2 in
  frontend.db s' = frontend.db s /\
  frontend.currentGameId (frontend.front s') = Some gameId /\
  (member (frontend.user c) gameId (frontend.db s) ->
   frontend.gameState (frontend.front s') = frontend.StGame /\
   frontend.notices (frontend.front s') = frontend.notices c ++ [frontend.NoticeRejoining]) /\
  (~ member (frontend.user c) gameId (frontend.db s) ->
   frontend.gameState (frontend.front s') = frontend.StCharacterCreation /\
   frontend.notices (frontend.front s') = frontend.notices c ++ [frontend.NoticeJoining]).
Proof.
  intros Hf Hlen c s'. subst c s'.
  pose proof (count_members gameId (frontend.db s)) as Hc.
  pose proof (lookup_member (frontend.user (frontend.front s)) gameId (frontend.db s)) as Hm.
  pose proof (find_member (frontend.user (frontend.front s)) gameId (frontend.db s)) as Hfm.
  cbv beta iota delta [frontend.players_where fst snd] in Hc, Hm, Hfm.
  open_visit s. subst f.
  front_eval. rewrite Hc.
  destruct (4 <=? length _)%nat eqn:E; [apply Nat.leb_le in E; lia|].
  destruct (List.find _ _) eqn:Efind; front_eval;
    destruct (0 <? length _)%nat; front_eval; repeat split;
    intros; try reflexivity; exfalso;
    try (assert (is_Some (@None Player)) as [? ?] by (apply Hfm; assumption); discriminate);
    try (assert (false = true) by (apply Hm; assumption); discriminate);
    try (assert (false = true) by (apply Hm, Hfm; eexists; reflexivity); discriminate);
    intuition eauto.
Qed.

(* Alice rejoins the game of two. *)
Lemma joinGame_routes_by_membership_witness :
  let s' := (frontend.joinGame "g1" (visit demo_db "ua" "alice" None)).2 in
  frontend.gameState (frontend.front s') = frontend.StGame /\
  frontend.notices (frontend.front s') = [frontend.NoticeRejoining].
Proof.
  pose proof (joinGame_routes_by_membership "g1" (visit demo_db "ua" "alice" None)
                eq_refl ltac:(vm_compute; lia)) as H.
  cbv zeta in H. destruct H as (_ & _ & H & _).
  apply H. exists "p1", alice. repeat split.
Defined.

Lemma fill_form_completes trim name class random s :
  trim name <> "" -> class <> "" ->
  let s' := (fill_form name class random s).2 in
  complete_form trim (frontend.front s') /\
  frontend.db s' = frontend.db s /\
  frontend.faults s' = frontend.faults s /\
  frontend.user (frontend.front s') = frontend.user (frontend.front s) /\
  frontend.characterName (frontend.front s') = name /\
  frontend.gameState (frontend.front s') = frontend.gameState (frontend.front s) /\
  frontend.currentGameId (frontend.front s') = frontend.currentGameId (frontend.front s).
Proof.
  intros Hn Hc s'. subst s'. open_visit s. unfold fill_form, complete_form.
  front_eval. repeat split; assumption.
Qed.

(** X22. A failed lookup gives a user a second character.  When the lookup
    of App fails for a user who already has a character in the game, Join
    announces 'Rejoining game...' but the user lands on the character
    creation; the form does not look for a character of the user, so
    submitting it stores a second player row of the same user in the same
    game, next to the first. *)
Theorem failed_lookup_leads_to_a_second_character
    trim gameId id name class random s k mine :
  frontend.faults s = Some 1%nat ->
  db_players (frontend.db s) !! k = Some mine ->
  player_game_id mine = gameId ->
  user_id mine = frontend.user (frontend.front s) ->
  (length (roster gameId (frontend.db s)) < 4)%nat ->
  (size (db_players (frontend.db s)) <= 100)%nat ->
  db_players (frontend.db s) !! id = None ->
  trim name <> "" -> class <> "" ->
  let s1 := (frontend.joinGame gameId s).2 in
  let s2 := (fill_form name class random (next_visit s1 None)).2 in
  let s3 := (frontend.createCharacter trim gameId id s2).2 in
  frontend.notices (frontend.front s1) =
    frontend.notices (frontend.front s) ++ [frontend.NoticeRejoining] /\
  frontend.gameState (frontend.front s1) = frontend.StCharacterCreation /\
  frontend.currentGameId (frontend.front s1) = Some gameId /\
  db_players (frontend.db s3) !! k = Some mine /\
  (exists second,
     db_players (frontend.db s3) !! id = Some second /\
     k <> id /\
     player_game_id second = player_game_id mine /\
     user_id second = user_id mine) /\
  frontend.gameState (frontend.front s3) = frontend.StGame.
Proof.
  intros Hf Hk Hg Hu Hlen Hsize Hfresh Hn Hc s1 s2 s3.
  assert (Hm : member (frontend.user (frontend.front s)) gameId (frontend.db s))
    by (exists k, mine; auto).
  assert (H1 : frontend.db s1 = frontend.db s /\
               frontend.user (frontend.front s1) = frontend.user (frontend.front s) /\
               frontend.notices (frontend.front s1) =
                 frontend.notices (frontend.front s) ++ [frontend.NoticeRejoining] /\
               frontend.gameState (frontend.front s1) = frontend.StCharacterCreation /\
               frontend.currentGameId (frontend.front s1) = Some gameId).
  { subst s1 s2 s3.
    pose proof (count_members gameId (frontend.db s)) as Hcm.
    apply find_member in Hm as [q Hq].
    cbv beta iota delta [frontend.players_where fst snd] in Hcm, Hq.
    clear Hk Hfresh Hsize.
    open_visit s. subst f. front_eval. rewrite Hcm.
    destruct (4 <=? length _)%nat eqn:E; [apply Nat.leb_le in E; lia|].
    rewrite Hq. front_eval. repeat split. }
  destruct H1 as (Hd1 & Hu1 & Hn1 & Hs1 & Hg1).
  destruct (fill_form_completes trim name class random (next_visit s1 None) Hn Hc)
    as (Hform & Hd2 & Hf2 & Hu2 & Hname2 & _).
  fold s2 in Hform, Hd2, Hf2, Hu2, Hname2.
  change (frontend.db (next_visit s1 None)) with (frontend.db s1) in Hd2.
  change (frontend.faults (next_visit s1 None)) with (@None nat) in Hf2.
  change (frontend.front (next_visit s1 None)) with (frontend.front s1) in Hu2.
  rewrite Hd1 in Hd2. rewrite Hu1 in Hu2. clearbody s1.
  assert (Hsize2 : (size (db_players (frontend.db s2)) <= 100)%nat)
    by (rewrite Hd2; exact Hsize).
  assert (Hlen2 : (length (roster gameId (frontend.db s2)) < 4)%nat)
    by (rewrite Hd2; exact Hlen).
  destruct (createCharacter_stored trim gameId id s2 Hform Hf2 Hsize2 Hlen2)
    as (Hd3 & _ & _ & Hs3 & _).
  fold s3 in Hd3, Hs3. clearbody s3 s2.
  assert (Hki : k <> id) by (intros ->; rewrite Hfresh in Hk; discriminate Hk).
  rewrite Hd2 in Hd3.
  repeat split; try assumption.
  - rewrite Hd3. simpl. rewrite lookup_insert_ne by auto. exact Hk.
  - eexists. rewrite Hd3. simpl. rewrite lookup_insert_eq.
    split; [reflexivity|]. split; [exact Hki|]. simpl.
    split; [symmetry; exact Hg|]. rewrite Hu2. symmetry. exact Hu.
Qed.

(* Alice rejoins while the lookup of App, the second remote call, fails. *)
Lemma failed_lookup_leads_to_a_second_character_witness :
  let s := visit demo_db "ua" "alice" (Some 1%nat) in
  let s1 := (frontend.joinGame "g1" s).2 in
  let s2 := (fill_form "Alice II" "Rogue" (fun _ => 1#2) (next_visit s1 None)).2 in
  let s3 := (frontend.createCharacter trim_ascii "g1" "p3" s2).2 in
  db_players (frontend.db s3) !! "p1" = Some alice /\
  db_players (frontend.db s3) !! "p3" = Some (newPlayer "p3" "g1" "ua" 3 "Alice II").
Proof.
  pose proof (failed_lookup_leads_to_a_second_character trim_ascii "g1" "p3"
                "Alice II" "Rogue" (fun _ => 1#2)
                (visit demo_db "ua" "alice" (Some 1%nat)) "p1" alice
                eq_refl eq_refl eq_refl eq_refl
                ltac:(vm_compute; lia) ltac:(vm_compute; lia) eq_refl
                ltac:(vm_compute; discriminate) ltac:(discriminate)) as H.
  cbv zeta in H. destruct H as (_ & _ & _ & H1 & _ & _).
  split; [exact H1 | reflexivity].
Defined.

(** ** From a new game to the first turn *)

Lemma roster_nil gameId d k q :
  roster gameId d = [] -> db_players d !! k = Some q -> player_game_id q <> gameId.
Proof.
  unfold roster. intros Hr Hk Hg.
  apply fmap_nil_inv in Hr. rewrite filter_nil_iff in Hr.
  specialize (Hr q). rewrite Hg, String.eqb_refl in Hr.
  discriminate Hr. apply stored_values. exists k. exact Hk.
Qed.

Lemma createGame_created trim gameId now s :
  let c := frontend.front s in
  let d := frontend.db s in
  trim (frontend.gameName c) <> "" ->
  frontend.faults s = None ->
  ~ member (frontend.user c) gameId d ->
  let s' := (frontend.createGame trim gameId now s).2 in
  frontend.db s' = mkDB (db_players d) (<[gameId := newGame gameId now]> (db_games d))
                        (db_board_tiles d) (db_chat_messages d) /\
  frontend.faults s' = None /\
  frontend.user (frontend.front s') = frontend.user c /\
  frontend.gameState (frontend.front s') = frontend.StCharacterCreation /\
  frontend.currentGameId (frontend.front s') = Some gameId /\
  frontend.gameName (frontend.front s') = "" /\
  frontend.showCreateGame (frontend.front s') = false /\
  frontend.lobbyCreating (frontend.front s') = false /\
  frontend.notices (frontend.front s') = frontend.notices c ++ [frontend.NoticeGameCreated].
Proof.
  intros c d Hname Hf Hno s'. subst c d s'.
  pose proof (lookup_member (frontend.user (frontend.front s)) gameId
    (frontend.games_create (newGame gameId now) (frontend.db s)).2) as Hm.
  assert (Hno' : ~ member (frontend.user (frontend.front s)) gameId
    (frontend.games_create (newGame gameId now) (frontend.db s)).2) by exact Hno.
  cbv beta iota delta [frontend.players_where frontend.games_create fst snd] in Hm.
  open_visit s. subst f. apply String.eqb_neq in Hname.
  front_eval. rewrite Hname. front_eval.
  destruct (0 <? length _)%nat; [exfalso; apply Hno', Hm; reflexivity|].
  front_eval. repeat split.
Qed.

(** X23. Creating a game under a name that is not blank stores a waiting
    game whose turn counter and player pointer are both 1, closes the
    dialog, and takes the creator (who has no character in it yet) to the
    character creation for that game. *)
Theorem createGame_opens_a_waiting_game trim gameId now s :
  let c := frontend.front s in
  let d := frontend.db s in
  trim (frontend.gameName c) <> "" ->
  frontend.faults s = None ->
  ~ member (frontend.user c) gameId d ->
  let s' := (frontend.createGame trim gameId now s).2 in
  exists g,
    db_games (frontend.db s') = <[gameId := g]> (db_games d) /\
    game_id g = gameId /\ status g = "waiting" /\
    current_turn g = 1 /\ current_player g = 1 /\
    db_players (frontend.db s') = db_players d /\
    frontend.gameState (frontend.front s') = frontend.StCharacterCreation /\
    frontend.currentGameId (frontend.front s') = Some gameId /\
    frontend.gameName (frontend.front s') = "" /\
    frontend.showCreateGame (frontend.front s') = false /\
    frontend.lobbyCreating (frontend.front s') = false.
Proof.
  intros c d Hname Hf Hno s'.
  destruct (createGame_created trim gameId now s Hname Hf Hno)
    as (Hd & _ & _ & Hs & Hg & Hn & Hshow & Hcr & _).
  fold s' in Hd, Hs, Hg, Hn, Hshow, Hcr.
  exists (newGame gameId now). rewrite Hd. simpl. repeat split; assumption.
Qed.

Lemma carol_not_in_g2 : ~ member "uc" "g2" demo_db.
Proof.
  intros (k & q & Hk & Hg & _).
  exact (roster_nil "g2" demo_db k q eq_refl Hk Hg).
Qed.

Lemma createGame_opens_a_waiting_game_witness :
  let s' := (frontend.createGame trim_ascii "g2" "2024-05-02" carol_names_a_game).2 in
  exists g,
    db_games (frontend.db s') = <["g2" := g]> (db_games demo_db) /\
    game_id g = "g2" /\ status g = "waiting" /\
    current_turn g = 1 /\ current_player g = 1 /\
    db_players (frontend.db s') = db_players demo_db /\
    frontend.gameState (frontend.front s') = frontend.StCharacterCreation /\
    frontend.currentGameId (frontend.front s') = Some "g2" /\
    frontend.gameName (frontend.front s') = "" /\
    frontend.showCreateGame (frontend.front s') = false /\
    frontend.lobbyCreating (frontend.front s') = false.
Proof.
  apply (createGame_opens_a_waiting_game trim_ascii "g2" "2024-05-02" carol_names_a_game).
  - vm_compute. discriminate.
  - reflexivity.
  - exact carol_not_in_g2.
Defined.





(** X25. The list of the lobby: after loadGames the lobby is no longer
    loading and no table is written.  When the listing fails, the games
    shown stay as they were and 'Failed to load games' is reported;
    otherwise at most ten games are shown, each of them a stored game that
    is waiting or active. *)
Theorem loadGames_shows_open_stored_games s :
  let c := frontend.front s in
  let s' := (frontend.loadGames s).2 in
  let c' := frontend.front s' in
  frontend.lobbyLoading c' = false /\
  frontend.db s' = frontend.db s /\
  (frontend.faults s = Some 0%nat ->
   frontend.games c' = frontend.games c /\
   frontend.notices c' = frontend.notices c ++ [frontend.NoticeLoadGamesFailed]) /\
  (frontend.faults s <> Some 0%nat ->
   (length (frontend.games c') <= 10)%nat /\
   Forall (fun g => (status g = "waiting" \/ status g = "active") /\
                    exists k, db_games (frontend.db s) !! k = Some g)
          (frontend.games c') /\
   frontend.notices c' = frontend.notices c).
Proof.
  intros c s' c'. subst c s' c'.
  pose proof (fun g => listed_game_stored 20 (frontend.db s) g) as Hstored.
  cbv beta iota delta [blink.games_list fst snd] in Hstored.
  assert (Hopen : forall l : list Game,
    (forall g, g ∈ l -> exists k, db_games (frontend.db s) !! k = Some g) ->
    (length (take 10 (List.filter (fun g => String.eqb (status g) "waiting"
                                            || String.eqb (status g) "active") l)) <= 10)%nat /\
    Forall (fun g => (status g = "waiting" \/ status g = "active") /\
                     exists k, db_games (frontend.db s) !! k = Some g)
           (take 10 (List.filter (fun g => String.eqb (status g) "waiting"
                                           || String.eqb (status g) "active") l))).
  { intros l Hl. split; [rewrite length_take; lia|].
    apply Forall_take, Forall_forall. intros g Hg.
    apply list_elem_of_In, filter_In in Hg as [Hin Hst].
    apply list_elem_of_In in Hin.
    apply orb_true_iff in Hst as [Hst | Hst]; apply String.eqb_eq in Hst; auto. }
  open_visit s.
  destruct f as [[|k]|]; front_eval.
  - repeat split; intros; congruence.
  - destruct (Hopen _ Hstored). repeat split; try assumption; intros; congruence.
  - destruct (Hopen _ Hstored). repeat split; try assumption; intros; congruence.
Qed.
